(** * A model-agnostic benchmark of two text-generation providers

    Shallow embedding of [app.py]: the two provider adapters
    ([OpenAIAdapter], [GeminiAdapter]), the [BenchmarkRunner] and the
    report loop of [main], followed by the properties of the runner.

    Conventions of the embedding.
    - A Python [dict] with string keys is a [gmap string value].
    - A Python [str] is a [string]; each character stands for the code
      point of the same number (0..255).
    - A value of type [Optional[str]] is an [option string]; [None] in
      a dictionary is [VNone].
    - A Python [float] holding a time in seconds is an exact rational
      [Q]; binary64 representation error is not modelled.
    - A Python callable that reads the clock, talks to a vendor or may
      raise is a function in the monad [M W] of state [W] and
      exceptions.  [Exception] stands for an instance of Python's
      [Exception] class, which is what [except Exception] catches;
      signals that are not such instances ([KeyboardInterrupt],
      [SystemExit]) come from outside the program and are not part of
      the model, and every call is assumed to come back. *)

From Stdlib Require Import Ascii String QArith Qround Lqa.
From stdpp Require Import gmap strings list fin_maps.

Open Scope Z_scope.
Open Scope string_scope.
Open Scope list_scope.
Open Scope stdpp_scope.

(** ** Python values *)

Inductive value : Type :=
  | VNone
  | VStr (s : string)
  | VInt (n : Z)
  | VFloat (q : Q).

Abbreviation dict := (gmap string value).

(** An instance of [Exception]: its class name and what [str(e)] gives. *)
Record Exception : Type := mkException {
  exc_class : string;
  exc_str : string
}.

(** ** State and exceptions *)

Inductive outcome (A : Type) : Type :=
  | Return (a : A)
  | Raise (e : Exception).
Arguments Return {A} a.
Arguments Raise {A} e.

Definition M (W A : Type) : Type := W -> outcome A * W.

Definition ret {W A} (a : A) : M W A := fun w => (Return a, w).

Definition raise {W A} (e : Exception) : M W A := fun w => (Raise e, w).

Definition bind {W A B} (m : M W A) (k : A -> M W B) : M W B :=
  fun w =>
    match m w with
    | (Return a, w') => k a w'
    | (Raise e, w') => (Raise e, w')
    end.

(** [try: body except Exception as e: handler] *)
Definition try_except {W A} (body : M W A) (handler : Exception -> M W A)
  : M W A :=
  fun w =>
    match body w with
    | (Return a, w') => (Return a, w')
    | (Raise e, w') => handler e w'
    end.

Declare Scope py_scope.
Delimit Scope py_scope with py.
Notation "x <- m ;; k" := (bind m (fun x => k))
  (at level 100, m at next level, right associativity) : py_scope.
Notation "m ;;; k" := (bind m (fun _ => k))
  (at level 100, right associativity) : py_scope.
Open Scope py_scope.

(** ** The abstract adapter and the runner *)

Section Runner.
Context {W : Type}.

(** [class ModelAdapter(ABC)]: a [name] and a [generate] method. *)
Record ModelAdapter : Type := mkAdapter {
  name : string;
  generate : string -> M W dict
}.

(** The dictionary appended by the [except] branch of [run]. *)
Definition error_dict (adapter : ModelAdapter) (e : Exception) : dict :=
  <["error" := VStr (exc_str e)]>
    (<["provider" := VStr (name adapter)]> ∅).

(** The body of [for adapter in self.adapters: ...], with the list
    [results] built so far. *)
Fixpoint run_loop (adapters : list ModelAdapter) (prompt : string)
    (results : list dict) : M W (list dict) :=
  match adapters with
  | [] => ret results
  | adapter :: rest =>
      results' <-
        try_except
          (result <- generate adapter prompt ;;
           ret (results ++ [result]))
          (fun e => ret (results ++ [error_dict adapter e])) ;;
      run_loop rest prompt results'
  end.

(** [BenchmarkRunner.run], with [self.adapters] as first argument. *)
Definition run (adapters : list ModelAdapter) (prompt : string)
  : M W (list dict) :=
  run_loop adapters prompt [].

(** What one adapter contributes to the result list. *)
Definition entry (adapter : ModelAdapter) (o : outcome dict) : dict :=
  match o with
  | Return result => result
  | Raise e => error_dict adapter e
  end.

(** The state in which the adapter after [adapters] is invoked. *)
Definition world_after (adapters : list ModelAdapter) (prompt : string)
    (w : W) : W :=
  (run adapters prompt w).2.

End Runner.
Arguments ModelAdapter W : clear implicits.

(** ** Built-ins used by the adapters *)

(** [str.isspace] on one character, for code points below 256. *)
Definition isspace (c : ascii) : bool :=
  let n := N_of_ascii c in
  ((9 <=? n) && (n <=? 13) || (28 <=? n) && (n <=? 32)
   || (n =? 133) || (n =? 160))%N.

(** [s.split()] with no separator: the maximal runs of characters that
    are not whitespace.  [word] is the run being read. *)
Fixpoint split_from (s : string) (word : string) : list string :=
  match s with
  | EmptyString =>
      match word with
      | EmptyString => []
      | _ => [word]
      end
  | String c rest =>
      if isspace c then
        match word with
        | EmptyString => split_from rest EmptyString
        | _ => word :: split_from rest EmptyString
        end
      else split_from rest (String.append word (String c EmptyString))
  end.

Definition split (s : string) : list string := split_from s EmptyString.

(** Whether some character of [s] is whitespace. *)
Fixpoint has_space (s : string) : bool :=
  match s with
  | EmptyString => false
  | String c rest => isspace c || has_space rest
  end.

(** What [text.split()] raises when [text] is [None]. *)
Definition no_split : Exception :=
  mkException "AttributeError" "'NoneType' object has no attribute 'split'".

(** [text.split()] for [text] of type [Optional[str]]. *)
Definition str_split {W} (text : option string) : M W (list string) :=
  match text with
  | Some s => ret (split s)
  | None => raise no_split
  end.

(** A value of type [Optional[str]] as it is stored in a dictionary. *)
Definition optional_str (text : option string) : value :=
  match text with
  | Some s => VStr s
  | None => VNone
  end.

(** [len(l)] as a Python [int]. *)
Definition len {A} (l : list A) : Z := Z.of_nat (length l).

(** Nearest integer, ties to the even one. *)
Definition round_half_even (x : Q) : Z :=
  let f := Qfloor x in
  match (x - inject_Z f ?= 1 # 2)%Q with
  | Lt => f
  | Gt => f + 1
  | Eq => if Z.even f then f else f + 1
  end.

(** [round(x, ndigits)] for [ndigits >= 0]: the closest multiple of
    [10 ** -ndigits], ties to the even choice. *)
Definition round (x : Q) (ndigits : nat) : Q :=
  let scale := inject_Z (10 ^ Z.of_nat ndigits) in
  Qred (inject_Z (round_half_even (x * scale)) / scale).

(** [c * n] for a string [c]. *)
Fixpoint str_mul (c : string) (n : nat) : string :=
  match n with
  | O => EmptyString
  | S n' => String.append c (str_mul c n')
  end.

(** ** The outside world: the clock and the two vendors *)

(** [response.usage] of the OpenAI SDK, when present. *)
Record ResponseUsage : Type := mkResponseUsage {
  total_tokens : Z
}.

(** The object returned by [client.responses.create]. *)
Record OpenAIResponse : Type := mkOpenAIResponse {
  output_text : string;
  usage : option ResponseUsage
}.

(** [response.usage_metadata] of the Gemini SDK, when present. *)
Record UsageMetadata : Type := mkUsageMetadata {
  total_token_count : Z
}.

(** The object returned by [client.models.generate_content]; its
    [text] is [None] when the answer has no text part. *)
Record GeminiResponse : Type := mkGeminiResponse {
  text : option string;
  usage_metadata : option UsageMetadata
}.

(** A request as a vendor receives it: model identifier and prompt. *)
Definition request : Type := string * string.

(** The state outside the program.  [clock n] is what the [n]-th call
    of [time.time()] returns; nothing is assumed about successive
    readings.  A vendor answers a request, given the requests it has
    received before, with a response or with an exception. *)
Record World : Type := mkWorld {
  clock : nat -> Q;
  clock_reads : nat;
  openai_backend : list request -> request -> outcome OpenAIResponse;
  openai_requests : list request;
  gemini_backend : list request -> request -> outcome GeminiResponse;
  gemini_requests : list request
}.

(** [time.time()] *)
Definition time_time : M World Q :=
  fun w =>
    (Return (clock w (clock_reads w)),
     mkWorld (clock w) (S (clock_reads w))
       (openai_backend w) (openai_requests w)
       (gemini_backend w) (gemini_requests w)).

(** [self.client.responses.create(model=..., input=...)] *)
Definition responses_create (model input : string) : M World OpenAIResponse :=
  fun w =>
    (openai_backend w (openai_requests w) (model, input),
     mkWorld (clock w) (clock_reads w)
       (openai_backend w) (openai_requests w ++ [(model, input)])
       (gemini_backend w) (gemini_requests w)).

(** [self.client.models.generate_content(model=..., contents=...)] *)
Definition generate_content (model contents : string) : M World GeminiResponse :=
  fun w =>
    (gemini_backend w (gemini_requests w) (model, contents),
     mkWorld (clock w) (clock_reads w)
       (openai_backend w) (openai_requests w)
       (gemini_backend w) (gemini_requests w ++ [(model, contents)])).

(** ** The two concrete adapters *)

Module OpenAIAdapter.
Definition name : string := "OpenAI GPT-4.1-mini".

Definition generate (prompt : string) : M World dict :=
  start <- time_time ;;
  response <- responses_create "gpt-4.1-mini" prompt ;;
  now <- time_time ;;
  let latency := (now - start)%Q in
  ret (<["tokens" := VInt match usage response with
                          | Some u => total_tokens u
                          | None => 0
                          end]>
       (<["latency" := VFloat (round latency 2)]>
        (<["text" := VStr (output_text response)]>
         (<["provider" := VStr name]> ∅)))).

Definition adapter : ModelAdapter World := mkAdapter name generate.
End OpenAIAdapter.

Module GeminiAdapter.
Definition name : string := "Google Gemini 1.5 Flash".

Definition generate (prompt : string) : M World dict :=
  start <- time_time ;;
  response <- generate_content "gemini-1.5-flash" prompt ;;
  now <- time_time ;;
  let latency := (now - start)%Q in
  tokens <-
    match usage_metadata response with
    | Some u => ret (total_token_count u)
    | None => words <- str_split (text response) ;; ret (len words)
    end ;;
  ret (<["tokens" := VInt tokens]>
       (<["latency" := VFloat (round latency 2)]>
        (<["text" := optional_str (text response)]>
         (<["provider" := VStr name]> ∅)))).

Definition adapter : ModelAdapter World := mkAdapter name generate.
End GeminiAdapter.

(** ** The report loop of [main] *)

(** Standard output, as the argument lists of the successive [print]
    calls. *)
Definition stdout : Type := list (list value).

Definition print (args : list value) : M stdout unit :=
  fun out => (Return tt, out ++ [args]).

(** [r[key]], raising [KeyError] when the key is missing. *)
Definition getitem {W} (r : dict) (key : string) : M W value :=
  match r !! key with
  | Some v => ret v
  | None =>
      raise (mkException "KeyError"
               (String.append "'" (String.append key "'")))
  end.

(** [key in r] *)
Definition contains (r : dict) (key : string) : bool :=
  bool_decide (is_Some (r !! key)).

(** The body of [for r in results: ...] in [main]. *)
Definition print_block (r : dict) : M stdout unit :=
  provider <- getitem r "provider" ;;
  print [VStr "Provider:"; provider] ;;;
  (if contains r "error" then
     error <- getitem r "error" ;;
     print [VStr "ERROR:"; error]
   else
     latency <- getitem r "latency" ;;
     print [VStr "Latency:"; latency; VStr "seconds"] ;;;
     tokens <- getitem r "tokens" ;;
     print [VStr "Token Count:"; tokens] ;;;
     print [VStr "Response:"] ;;;
     text <- getitem r "text" ;;
     print [text]) ;;;
  print [VStr (str_mul "-" 60)].

(** [for r in results: ...] in [main]. *)
Fixpoint report (results : list dict) : M stdout unit :=
  match results with
  | [] => ret tt
  | r :: rest => print_block r ;;; report rest
  end.

(** ** The two result shapes of the data model *)

(** {provider, text, latency, tokens}; [text] is the response text as
    the vendor gave it, a string or [None]. *)
Definition GenerationResult (provider : string) (text : value)
    (latency : Q) (tokens : Z) : dict :=
  <["tokens" := VInt tokens]>
    (<["latency" := VFloat latency]>
      (<["text" := text]>
        (<["provider" := VStr provider]> ∅))).

(** {provider, error} *)
Definition ErrorResult (provider error : string) : dict :=
  <["error" := VStr error]> (<["provider" := VStr provider]> ∅).

Definition is_generation_result (r : dict) : Prop :=
  ∃ provider text latency tokens,
    r = GenerationResult provider text latency tokens.

Definition is_error_result (r : dict) : Prop :=
  ∃ provider error, r = ErrorResult provider error.

(** The contract of [generate]: what it returns is a GenerationResult. *)
Definition honours_contract {W} (adapter : ModelAdapter W) : Prop :=
  ∀ prompt w r w',
    generate adapter prompt w = (Return r, w') → is_generation_result r.

(** ** Test doubles *)

(** An adapter whose [generate] always returns [fixed]. *)
Definition fixed_adapter {W} (name : string) (fixed : dict) : ModelAdapter W :=
  mkAdapter name (fun _ => ret fixed).

(** An adapter whose [generate] always raises [e]. *)
Definition failing_adapter {W} (name : string) (e : Exception)
  : ModelAdapter W :=
  mkAdapter name (fun _ => raise e).

(** An adapter that records each call of [generate] (its name and the
    prompt) before handing the call to [adapter]. *)
Definition spy {W} (adapter : ModelAdapter W)
  : ModelAdapter (W * list (string * string)) :=
  mkAdapter (name adapter)
    (fun prompt s =>
       let '(o, w') := generate adapter prompt s.1 in
       (o, (w', s.2 ++ [(name adapter, prompt)]))).

(** A world for examples: clock readings [first], [second], ... and
    vendors that answer every request the same way. *)
Definition sample_world (readings : nat -> Q)
    (openai : outcome OpenAIResponse) (gemini : outcome GeminiResponse)
  : World :=
  mkWorld readings 0 (fun _ _ => openai) [] (fun _ _ => gemini) [].

(** Both vendors answer without usage metadata; the clock advances by
    1.237 s per reading. *)
Definition quiet_world : World :=
  sample_world (fun n => inject_Z (Z.of_nat n) * (1237 # 1000))%Q
    (Return (mkOpenAIResponse "hello  big world" None))
    (Return (mkGeminiResponse (Some " a b c ") None)).

(** The clock is set back by half a second between two readings. *)
Definition set_back_world : World :=
  sample_world (fun n => 10 - inject_Z (Z.of_nat n) * (1 # 2))%Q
    (Return (mkOpenAIResponse "ok" (Some (mkResponseUsage 7))))
    (Return (mkGeminiResponse (Some "ok") (Some (mkUsageMetadata 7)))).

(** The OpenAI endpoint refuses the request, Gemini answers. *)
Definition half_down_world : World :=
  sample_world (fun n => inject_Z (Z.of_nat n) * (1 # 4))%Q
    (Raise (mkException "AuthenticationError" "Incorrect API key provided"))
    (Return
       (mkGeminiResponse (Some "two words") (Some (mkUsageMetadata 12)))).

(** Gemini answers with neither text nor usage metadata. *)
Definition textless_world : World :=
  sample_world (fun n => inject_Z (Z.of_nat n) * (1 # 4))%Q
    (Return (mkOpenAIResponse "ok" (Some (mkResponseUsage 7))))
    (Return (mkGeminiResponse None None)).

(** ** What the environment must provide for sensible metrics *)

(** The reading after the vendor call is not earlier than the one
    before it. *)
Definition clock_not_set_back (w : World) : Prop :=
  (clock w (clock_reads w) <= clock w (S (clock_reads w)))%Q.

(** Usage reported by the vendors for [prompt], when reported, is not
    negative. *)
Definition reported_usage_nonneg (w : World) (prompt : string) : Prop :=
  (∀ response u,
     openai_backend w (openai_requests w) ("gpt-4.1-mini", prompt)
       = Return response →
     usage response = Some u → (0 ≤ total_tokens u)%Z)
  ∧ (∀ response u,
       gemini_backend w (gemini_requests w) ("gemini-1.5-flash", prompt)
         = Return response →
       usage_metadata response = Some u → (0 ≤ total_token_count u)%Z).

(** ** Construction of the adapters and [main] *)

Inductive vendor : Type :=
  | OpenAI
  | Gemini.

(** The process in which [main] runs.  [environ] is [os.environ] once
    [load_dotenv()] has run; [sdk_init v key] tells whether building
    the client of vendor [v] with [api_key=key] raises, and what;
    [client_calls] lists the clients built so far; [stdin] holds the
    lines still to be read; [shown] the prompts written by [input];
    [printed] the [print] calls; [world] the clock and the vendors. *)
Record Session : Type := mkSession {
  environ : gmap string string;
  sdk_init : vendor -> option string -> option Exception;
  client_calls : list (vendor * option string);
  stdin : list string;
  shown : list string;
  printed : stdout;
  world : World
}.

(** [os.getenv(key)]: [None] when the variable is not set. *)
Definition os_getenv (key : string) : M Session (option string) :=
  fun s => (Return (environ s !! key), s).

(** [OpenAI(api_key=...)] and [genai.Client(api_key=...)] *)
Definition new_client (v : vendor) (api_key : option string)
  : M Session unit :=
  fun s =>
    let s' :=
      mkSession (environ s) (sdk_init s)
        (client_calls s ++ [(v, api_key)])
        (stdin s) (shown s) (printed s) (world s) in
    match sdk_init s v api_key with
    | Some e => (Raise e, s')
    | None => (Return tt, s')
    end.

(** [input(prompt)]: shows [prompt], then takes one line from standard
    input, and raises [EOFError] when there is none. *)
Definition input (prompt : string) : M Session string :=
  fun s =>
    match stdin s with
    | line :: rest =>
        (Return line,
         mkSession (environ s) (sdk_init s) (client_calls s)
           rest (shown s ++ [prompt]) (printed s) (world s))
    | [] =>
        (Raise (mkException "EOFError" "EOF when reading a line"),
         mkSession (environ s) (sdk_init s) (client_calls s)
           [] (shown s ++ [prompt]) (printed s) (world s))
    end.

(** A computation on the clock and the vendors, run inside the
    process. *)
Definition in_world {A} (m : M World A) : M Session A :=
  fun s =>
    let '(o, w') := m (world s) in
    (o,
     mkSession (environ s) (sdk_init s) (client_calls s)
       (stdin s) (shown s) (printed s) w').

(** A computation that prints, run inside the process. *)
Definition to_stdout {A} (m : M stdout A) : M Session A :=
  fun s =>
    let '(o, out') := m (printed s) in
    (o,
     mkSession (environ s) (sdk_init s) (client_calls s)
       (stdin s) (shown s) out' (world s)).

(** [OpenAIAdapter.__init__] *)
Definition OpenAIAdapter_init : M Session (ModelAdapter World) :=
  api_key <- os_getenv "OPENAI_API_KEY" ;;
  new_client OpenAI api_key ;;;
  ret OpenAIAdapter.adapter.

(** [GeminiAdapter.__init__] *)
Definition GeminiAdapter_init : M Session (ModelAdapter World) :=
  api_key <- os_getenv "GEMINI_API_KEY" ;;
  new_client Gemini api_key ;;;
  ret GeminiAdapter.adapter.

(** [class BenchmarkRunner]: [__init__] stores the adapters. *)
Record BenchmarkRunner : Type := mkBenchmarkRunner {
  self_adapters : list (ModelAdapter World)
}.

(** The line feed character. *)
Definition LF : string := String "010" EmptyString.

(** The title printed by [main] before the blocks. *)
Definition banner : string :=
  String.append LF
    (String.append "--- MODEL-AGNOSTIC AI BENCHMARK ---" LF).

(** [main] *)
Definition main : M Session unit :=
  prompt <- input "Enter your prompt: " ;;
  openai <- OpenAIAdapter_init ;;
  gemini <- GeminiAdapter_init ;;
  let adapters := [openai; gemini] in
  let runner := mkBenchmarkRunner adapters in
  results <- in_world (run (self_adapters runner) prompt) ;;
  to_stdout (print [VStr banner]) ;;;
  to_stdout (report results).

(** ** Notions used to state the properties *)

(** The adapter shipped for a vendor. *)
Definition shipped (v : vendor) : ModelAdapter World :=
  match v with
  | OpenAI => OpenAIAdapter.adapter
  | Gemini => GeminiAdapter.adapter
  end.

Definition is_openai (v : vendor) : bool :=
  match v with
  | OpenAI => true
  | Gemini => false
  end.

Definition is_gemini (v : vendor) : bool := negb (is_openai v).

(** Whether the vendor of [v], asked for [prompt] in the state [w],
    answers with a response rather than with an exception. *)
Definition vendor_answers (v : vendor) (prompt : string) (w : World) : bool :=
  match v with
  | OpenAI =>
      match openai_backend w (openai_requests w) ("gpt-4.1-mini", prompt) with
      | Return _ => true
      | Raise _ => false
      end
  | Gemini =>
      match
        gemini_backend w (gemini_requests w) ("gemini-1.5-flash", prompt)
      with
      | Return _ => true
      | Raise _ => false
      end
  end.

(** The number of vendor calls that are answered with a response in a
    run over the adapters of [vs]. *)
Fixpoint answered (vs : list vendor) (prompt : string) (w : World) : nat :=
  match vs with
  | [] => 0
  | v :: rest =>
      ((if vendor_answers v prompt w then 1 else 0)
       + answered rest prompt (generate (shipped v) prompt w).2)%nat
  end.

(** The results that do not carry the key "error". *)
Definition successes (results : list dict) : list dict :=
  filter (λ r, contains r "error" = false) results.

(** The characters of [s] that are not whitespace. *)
Fixpoint non_space (s : string) : string :=
  match s with
  | EmptyString => EmptyString
  | String c rest =>
      if isspace c then non_space rest else String c (non_space rest)
  end.

(** The words of [words], one after the other. *)
Fixpoint join (words : list string) : string :=
  match words with
  | [] => EmptyString
  | word :: rest => String.append word (join rest)
  end.

(** A process for examples: both keys set, one line typed. *)
Definition sample_session (line : string) (w : World) : Session :=
  mkSession
    (<["GEMINI_API_KEY" := "g-key"]> (<["OPENAI_API_KEY" := "o-key"]> ∅))
    (fun _ _ => None) [] [line] [] [] w.

(** A process in which a client cannot be built without a key, and
    [OPENAI_API_KEY] is not set. *)
Definition keyless_session (line : string) (w : World) : Session :=
  mkSession
    (<["GEMINI_API_KEY" := "g-key"]> ∅)
    (fun _ key =>
       match key with
       | Some _ => None
       | None => Some (mkException "OpenAIError" "The api_key must be set")
       end)
    [] [line] [] [] w.

(** The exception raised by [r[key]] when [key] is missing. *)
Definition key_error (key : string) : Exception :=
  mkException "KeyError" (String.append "'" (String.append key "'")).

(** Both vendors answer at once: the clock advances by 1 ms per
    reading. *)
Definition brisk_world : World :=
  sample_world (fun n => inject_Z (Z.of_nat n) * (1 # 1000))%Q
    (Return (mkOpenAIResponse "ok" (Some (mkResponseUsage 7))))
    (Return (mkGeminiResponse (Some "ok") (Some (mkUsageMetadata 7)))).

(** ** Facts about the monad and the loop *)

Section RunnerFacts.
Context {W : Type}.
Implicit Types (adapters rest : list (ModelAdapter W)).
Implicit Types (adapter : ModelAdapter W) (prompt : string) (w : W).
Implicit Types (results : list dict).

Lemma run_loop_acc adapters prompt results w :
  run_loop adapters prompt results w =
    match run_loop adapters prompt [] w with
    | (Return rs, w') => (Return (results ++ rs), w')
    | (Raise e, w') => (Raise e, w')
    end.
Proof.
  revert results w.
  induction adapters as [|adapter rest IH]; intros results w; simpl.
  - unfold ret. by rewrite app_nil_r.
  - unfold bind, try_except, ret.
    destruct (generate adapter prompt w) as [[r|e] w1]; simpl.
    + rewrite (IH (results ++ [r])), (IH [r]).
      destruct (run_loop rest prompt [] w1) as [[rs|e'] w2]; [|done].
      by rewrite <- app_assoc.
    + rewrite (IH (results ++ _)), (IH [_]).
      destruct (run_loop rest prompt [] w1) as [[rs|e'] w2]; [|done].
      by rewrite <- app_assoc.
Qed.

Lemma run_nil prompt w : run [] prompt w = (Return [], w).
Proof. reflexivity. Qed.

Lemma run_cons adapter rest prompt w :
  run (adapter :: rest) prompt w =
    match run rest prompt (generate adapter prompt w).2 with
    | (Return rs, w') =>
        (Return (entry adapter (generate adapter prompt w).1 :: rs), w')
    | (Raise e, w') => (Raise e, w')
    end.
Proof.
  unfold run at 1. simpl. unfold bind, try_except, ret.
  destruct (generate adapter prompt w) as [[r|e] w1]; simpl;
    by rewrite run_loop_acc.
Qed.

(** [run] always returns: no exception leaves the loop. *)
Lemma run_total adapters prompt w :
  ∃ results, run adapters prompt w =
               (Return results, world_after adapters prompt w).
Proof.
  unfold world_after. revert w.
  induction adapters as [|adapter rest IH]; intros w.
  - by exists [].
  - rewrite run_cons.
    destruct (IH (generate adapter prompt w).2) as [rs Hrs].
    rewrite Hrs. simpl. eauto.
Qed.

Lemma world_after_cons adapter rest prompt w :
  world_after (adapter :: rest) prompt w =
    world_after rest prompt (generate adapter prompt w).2.
Proof.
  unfold world_after. rewrite run_cons.
  by destruct (run rest prompt _) as [[rs|e] w'].
Qed.

Lemma run_length adapters prompt w results w' :
  run adapters prompt w = (Return results, w') →
  length results = length adapters.
Proof.
  revert w results w'.
  induction adapters as [|adapter rest IH]; intros w results w'.
  - rewrite run_nil. by intros [= <- _].
  - rewrite run_cons.
    destruct (run rest prompt _) as [[rs|e] w2] eqn:Hrest; [|done].
    intros [= <- _]. simpl. f_equal. eauto.
Qed.

Lemma run_app adapters rest prompt w rs1 w1 rs2 w2 :
  run adapters prompt w = (Return rs1, w1) →
  run rest prompt w1 = (Return rs2, w2) →
  run (adapters ++ rest) prompt w = (Return (rs1 ++ rs2), w2).
Proof.
  revert w rs1.
  induction adapters as [|adapter pre IH]; intros w rs1.
  - rewrite run_nil. by intros [= <- <-].
  - rewrite run_cons. simpl.
    destruct (run pre prompt _) as [[rs|e] w'] eqn:Hpre; [|done].
    intros [= <- <-] Hrest. rewrite run_cons.
    by rewrite (IH _ _ Hpre Hrest).
Qed.

Lemma run_lookup adapters prompt w results w' i adapter :
  run adapters prompt w = (Return results, w') →
  adapters !! i = Some adapter →
  results !! i =
    Some (entry adapter
            (generate adapter prompt
               (world_after (take i adapters) prompt w)).1).
Proof.
  revert w results w' i.
  induction adapters as [|a rest IH]; intros w results w' i; [done|].
  rewrite run_cons.
  destruct (run rest prompt _) as [[rs|e] w2] eqn:Hrest; [|done].
  intros [= <- _]. destruct i as [|i]; simpl.
  - by intros [= ->].
  - intros Hi. rewrite world_after_cons. eauto.
Qed.

End RunnerFacts.

(** ** Facts about [round] *)
Lemma round_half_even_choice x :
  round_half_even x = Qfloor x ∨ round_half_even x = (Qfloor x + 1)%Z.
Proof.
  unfold round_half_even.
  destruct (_ ?= _)%Q; [destruct (Z.even _)|..]; auto.
Qed.

Lemma round_half_even_close x :
  (inject_Z (round_half_even x) - (1 # 2) <= x
   ∧ x <= inject_Z (round_half_even x) + (1 # 2))%Q.
Proof.
  pose proof (Qfloor_le x) as Hlo.
  pose proof (Qlt_floor x) as Hhi.
  rewrite inject_Z_plus in Hhi. change (inject_Z 1) with 1%Q in Hhi.
  unfold round_half_even.
  destruct (x - inject_Z (Qfloor x) ?= 1 # 2)%Q eqn:Hc.
  - apply Qeq_alt in Hc.
    destruct (Z.even (Qfloor x));
      [|rewrite inject_Z_plus; change (inject_Z 1) with 1%Q]; split; lra.
  - apply Qlt_alt in Hc. split; lra.
  - apply Qgt_alt in Hc. rewrite inject_Z_plus.
    change (inject_Z 1) with 1%Q. split; lra.
Qed.

Lemma round_half_even_nonneg x : (0 <= x)%Q → (0 <= round_half_even x)%Z.
Proof.
  intros Hx.
  assert (0 <= Qfloor x)%Z as Hf.
  { change 0%Z with (Qfloor 0). by apply Qfloor_resp_le. }
  destruct (round_half_even_choice x) as [-> | ->]; lia.
Qed.

Lemma round_eq x ndigits :
  (round x ndigits ==
   inject_Z (round_half_even (x * inject_Z (10 ^ Z.of_nat ndigits)))
   / inject_Z (10 ^ Z.of_nat ndigits))%Q.
Proof. unfold round. apply Qred_correct. Qed.

Lemma scale_pos ndigits : (0 < inject_Z (10 ^ Z.of_nat ndigits))%Q.
Proof.
  change 0%Q with (inject_Z 0). rewrite <- Zlt_Qlt.
  apply Z.pow_pos_nonneg; lia.
Qed.

Lemma round_nonneg x ndigits : (0 <= x)%Q → (0 <= round x ndigits)%Q.
Proof.
  intros Hx. rewrite round_eq.
  pose proof (scale_pos ndigits) as Hs.
  apply Qle_shift_div_l; [done|]. rewrite Qmult_0_l.
  change 0%Q with (inject_Z 0). rewrite <- Zle_Qle.
  apply round_half_even_nonneg.
  apply Qmult_le_0_compat; [done|]. by apply Qlt_le_weak.
Qed.

Lemma round_2_hundredths x :
  (round x 2 == inject_Z (round_half_even (x * 100)) / 100)%Q.
Proof. apply (round_eq x 2). Qed.

Lemma round_2_close x :
  (x - (1 # 200) <= round x 2 ∧ round x 2 <= x + (1 # 200))%Q.
Proof.
  rewrite round_2_hundredths.
  destruct (round_half_even_close (x * 100)) as [Hlo Hhi].
  set (n := inject_Z (round_half_even (x * 100))) in *.
  split.
  - apply Qle_shift_div_l; [done|]. lra.
  - apply Qle_shift_div_r; [done|]. lra.
Qed.

Example round_down : round (1234 # 1000) 2 = (123 # 100)%Q.
Proof. reflexivity. Qed.

Example round_tie_to_even : round (125 # 1000) 2 = (3 # 25)%Q.
Proof. reflexivity. Qed.

Example round_tie_to_even_up : round (135 # 1000) 2 = (7 # 50)%Q.
Proof. reflexivity. Qed.

(** ** Facts about [split] *)

Example split_runs_of_whitespace :
  split "  hello   big world " = ["hello"; "big"; "world"].
Proof. reflexivity. Qed.

Example split_only_whitespace : split "   " = [].
Proof. reflexivity. Qed.

Lemma has_space_append s1 s2 :
  has_space (String.append s1 s2) = has_space s1 || has_space s2.
Proof.
  induction s1 as [|c s1 IH]; simpl; [done|].
  by rewrite IH, orb_assoc.
Qed.

Lemma append_nonempty s c : String.append s (String c EmptyString) ≠ EmptyString.
Proof. by destruct s. Qed.

Lemma split_from_words s word :
  has_space word = false →
  Forall (λ x, x ≠ EmptyString ∧ has_space x = false) (split_from s word).
Proof.
  revert word. induction s as [|c rest IH]; intros word Hword; simpl.
  - destruct word; by repeat constructor.
  - destruct (isspace c) eqn:Hc.
    + destruct word; [by apply IH|].
      constructor; [done|]. by apply IH.
    + apply IH. rewrite has_space_append. simpl. by rewrite Hword, Hc.
Qed.

Lemma split_words s :
  Forall (λ x, x ≠ EmptyString ∧ has_space x = false) (split s).
Proof. by apply split_from_words. Qed.

Lemma append_nil_r s : String.append s EmptyString = s.
Proof.
  induction s as [|c s IH]; [done|].
  change (String c (String.append s EmptyString) = String c s).
  by rewrite IH.
Qed.

Lemma append_snoc word c rest :
  String.append (String.append word (String c EmptyString)) rest =
    String.append word (String c rest).
Proof.
  induction word as [|a word IH]; [done|].
  change (String a (String.append
                      (String.append word (String c EmptyString)) rest)
          = String a (String.append word (String c rest))).
  by rewrite IH.
Qed.

Lemma split_from_no_space s word :
  has_space s = false →
  split_from s word =
    match String.append word s with
    | EmptyString => []
    | x => [x]
    end.
Proof.
  revert word. induction s as [|c rest IH]; intros word Hs; simpl.
  - rewrite append_nil_r. by destruct word.
  - simpl in Hs. apply orb_false_elim in Hs as [Hc Hrest].
    by rewrite Hc, IH, append_snoc.
Qed.

Lemma len_nonneg {A} (l : list A) : (0 ≤ len l)%Z.
Proof. unfold len. lia. Qed.

(** ** Facts about the two result shapes *)

Lemma error_dict_ErrorResult {W} (adapter : ModelAdapter W) e :
  error_dict adapter e = ErrorResult (name adapter) (exc_str e).
Proof. reflexivity. Qed.

Lemma GenerationResult_no_error provider text latency tokens :
  GenerationResult provider text latency tokens !! "error" = None.
Proof. reflexivity. Qed.

Lemma ErrorResult_error provider error :
  ErrorResult provider error !! "error" = Some (VStr error).
Proof. reflexivity. Qed.

Lemma ErrorResult_provider provider error :
  ErrorResult provider error !! "provider" = Some (VStr provider).
Proof. reflexivity. Qed.

Lemma ErrorResult_no_metrics provider error :
  ErrorResult provider error !! "latency" = None
  ∧ ErrorResult provider error !! "tokens" = None
  ∧ ErrorResult provider error !! "text" = None.
Proof. by repeat split. Qed.

(** The two shapes exclude each other. *)
Lemma generation_error_exclusive (r : dict) :
  is_generation_result r → is_error_result r → False.
Proof.
  intros (p & t & l & n & ->) (p' & e & Heq).
  apply (f_equal (lookup "error")) in Heq.
  by rewrite GenerationResult_no_error, ErrorResult_error in Heq.
Qed.

Lemma contains_error_generation (r : dict) :
  is_generation_result r → contains r "error" = false.
Proof. by intros (p & t & l & n & ->). Qed.

Lemma contains_error_error (r : dict) :
  is_error_result r → contains r "error" = true.
Proof. by intros (p & e & ->). Qed.

(** What [main] prints for each shape. *)
Lemma print_block_error provider error (out : stdout) :
  print_block (ErrorResult provider error) out =
    (Return tt,
     out ++ [[VStr "Provider:"; VStr provider];
             [VStr "ERROR:"; VStr error];
             [VStr (str_mul "-" 60)]]).
Proof.
  unfold print_block, bind, getitem.
  change (ErrorResult provider error !! "provider")
    with (Some (VStr provider)).
  change (contains (ErrorResult provider error) "error") with true.
  change (ErrorResult provider error !! "error") with (Some (VStr error)).
  unfold print, ret. simpl. by rewrite <- !app_assoc.
Qed.

Lemma print_block_generation provider text latency tokens (out : stdout) :
  print_block (GenerationResult provider text latency tokens) out =
    (Return tt,
     out ++ [[VStr "Provider:"; VStr provider];
             [VStr "Latency:"; VFloat latency; VStr "seconds"];
             [VStr "Token Count:"; VInt tokens];
             [VStr "Response:"];
             [text];
             [VStr (str_mul "-" 60)]]).
Proof.
  unfold print_block, bind, getitem.
  set (r := GenerationResult provider text latency tokens).
  change (r !! "provider") with (Some (VStr provider)).
  change (contains r "error") with false.
  change (r !! "latency") with (Some (VFloat latency)).
  change (r !! "tokens") with (Some (VInt tokens)).
  change (r !! "text") with (Some text).
  unfold print, ret. simpl. by rewrite <- !app_assoc.
Qed.

(** ** Facts about the two concrete adapters *)

(** [OpenAIAdapter.generate], step by step: two clock readings around
    one request to the vendor. *)
Lemma openai_generate_eq prompt (w : World) :
  OpenAIAdapter.generate prompt w =
    let start := clock w (clock_reads w) in
    let now := clock w (S (clock_reads w)) in
    let sent := openai_requests w ++ [("gpt-4.1-mini", prompt)] in
    match openai_backend w (openai_requests w) ("gpt-4.1-mini", prompt) with
    | Return response =>
        (Return
           (GenerationResult OpenAIAdapter.name (VStr (output_text response))
              (round (now - start) 2)
              match usage response with
              | Some u => total_tokens u
              | None => 0
              end),
         mkWorld (clock w) (S (S (clock_reads w)))
           (openai_backend w) sent (gemini_backend w) (gemini_requests w))
    | Raise e =>
        (Raise e,
         mkWorld (clock w) (S (clock_reads w))
           (openai_backend w) sent (gemini_backend w) (gemini_requests w))
    end.
Proof.
  unfold OpenAIAdapter.generate, bind, time_time, responses_create, ret.
  simpl. by destruct (openai_backend w _ _).
Qed.

Lemma gemini_generate_eq prompt (w : World) :
  GeminiAdapter.generate prompt w =
    let start := clock w (clock_reads w) in
    let now := clock w (S (clock_reads w)) in
    let sent := gemini_requests w ++ [("gemini-1.5-flash", prompt)] in
    match gemini_backend w (gemini_requests w) ("gemini-1.5-flash", prompt) with
    | Return response =>
        let w2 :=
          mkWorld (clock w) (S (S (clock_reads w)))
            (openai_backend w) (openai_requests w) (gemini_backend w) sent in
        match usage_metadata response with
        | Some u =>
            (Return
               (GenerationResult GeminiAdapter.name
                  (optional_str (text response))
                  (round (now - start) 2) (total_token_count u)),
             w2)
        | None =>
            match text response with
            | Some t =>
                (Return
                   (GenerationResult GeminiAdapter.name (VStr t)
                      (round (now - start) 2) (len (split t))),
                 w2)
            | None => (Raise no_split, w2)
            end
        end
    | Raise e =>
        (Raise e,
         mkWorld (clock w) (S (clock_reads w))
           (openai_backend w) (openai_requests w) (gemini_backend w) sent)
    end.
Proof.
  unfold GeminiAdapter.generate, bind, time_time, generate_content,
    str_split, raise, ret.
  simpl. destruct (gemini_backend w _ _) as [response|e]; [|done].
  destruct (usage_metadata response); [done|].
  by destruct (text response).
Qed.

(** A Gemini answer without text and without usage metadata: the call
    fails on [split], after the second reading of the clock. *)
Example gemini_without_text_raises :
  ∃ w',
    GeminiAdapter.generate "hi" textless_world = (Raise no_split, w')
    ∧ clock_reads w' = 2%nat
    ∧ run [GeminiAdapter.adapter] "hi" textless_world =
        (Return
           [ErrorResult "Google Gemini 1.5 Flash"
              "'NoneType' object has no attribute 'split'"],
         w').
Proof. eexists. by repeat split. Qed.

Lemma openai_honours_contract : honours_contract OpenAIAdapter.adapter.
Proof.
  intros prompt w r w' Hgen. simpl in Hgen.
  rewrite openai_generate_eq in Hgen. simpl in Hgen.
  destruct (openai_backend w _ _); [|done].
  injection Hgen as <- _. by eexists _, _, _, _.
Qed.

Lemma gemini_honours_contract : honours_contract GeminiAdapter.adapter.
Proof.
  intros prompt w r w' Hgen. simpl in Hgen.
  rewrite gemini_generate_eq in Hgen. simpl in Hgen.
  destruct (gemini_backend w _ _) as [response|e]; [|done].
  destruct (usage_metadata response);
    [|destruct (text response); [|done]];
    injection Hgen as <- _; by eexists _, _, _, _.
Qed.

Lemma fixed_honours_contract {W} name provider text latency tokens :
  honours_contract
    (@fixed_adapter W name (GenerationResult provider text latency tokens)).
Proof. intros prompt w r w' [= <- _]. by eexists _, _, _, _. Qed.

Lemma failing_honours_contract {W} name e :
  honours_contract (@failing_adapter W name e).
Proof. by intros prompt w r w'. Qed.

(** Opening a successful call of a shipped adapter: the vendor answered
    with [response], and the result is the dictionary built from it. *)
Ltac open_generate H response Hvendor :=
  simpl in H;
  first [rewrite openai_generate_eq in H | rewrite gemini_generate_eq in H];
  simpl in H;
  match type of H with
  | (match ?answer with _ => _ end) = _ =>
      destruct answer as [response|?] eqn:Hvendor; [|discriminate H]
  end;
  repeat match type of H with
         | (match ?field with _ => _ end) = _ =>
             destruct field eqn:?; try discriminate H
         end;
  injection H as <- _.

Create HintDb shapes.
#[local] Hint Resolve contains_error_generation contains_error_error
  generation_error_exclusive : shapes.

(** ** Facts about the report *)

Lemma print_block_total (r : dict) (out : stdout) :
  is_generation_result r ∨ is_error_result r →
  ∃ out', print_block r out = (Return tt, out').
Proof.
  intros [(p & t & l & n & ->) | (p & e & ->)].
  - rewrite print_block_generation. eauto.
  - rewrite print_block_error. eauto.
Qed.

Lemma report_total (results : list dict) (out : stdout) :
  Forall (λ r, is_generation_result r ∨ is_error_result r) results →
  ∃ out', report results out = (Return tt, out').
Proof.
  intros Hshapes. revert out.
  induction Hshapes as [|r rest Hr _ IH]; intros out; simpl.
  - by exists out.
  - unfold bind.
    destruct (print_block_total r out Hr) as [out1 ->]. apply IH.
Qed.

(** With adapters that keep their contract, every result of [run] has
    one of the two shapes. *)
Lemma run_shapes {W} (adapters : list (ModelAdapter W)) prompt w results w' :
  Forall honours_contract adapters →
  run adapters prompt w = (Return results, w') →
  Forall (λ r, is_generation_result r ∨ is_error_result r) results.
Proof.
  intros Hcontract. revert w results w'.
  induction Hcontract as [|adapter rest Hadapter _ IH]; intros w results w'.
  - rewrite run_nil. by intros [= <- _].
  - rewrite run_cons.
    destruct (run rest prompt _) as [[rs|e] w2] eqn:Hrest; [|done].
    intros [= <- _]. constructor; [|by eapply IH].
    destruct (generate adapter prompt w) as [[r|e] w1] eqn:Hgen; simpl.
    + left. eapply Hadapter, Hgen.
    + right. by eexists _, _.
Qed.

(** The first adapter fails, the second succeeds: two blocks, in order. *)
Example first_fails_second_reports :
  ∃ results w',
    run [OpenAIAdapter.adapter; GeminiAdapter.adapter] "hi" half_down_world
      = (Return results, w')
    ∧ report results [] =
        (Return tt,
         [[VStr "Provider:"; VStr "OpenAI GPT-4.1-mini"];
          [VStr "ERROR:"; VStr "Incorrect API key provided"];
          [VStr (str_mul "-" 60)];
          [VStr "Provider:"; VStr "Google Gemini 1.5 Flash"];
          [VStr "Latency:"; VFloat (1 # 4); VStr "seconds"];
          [VStr "Token Count:"; VInt 12];
          [VStr "Response:"];
          [VStr "two words"];
          [VStr (str_mul "-" 60)]]).
Proof. eexists _, _. split; reflexivity. Qed.

(** ** Facts about the spy *)

Lemma run_spy {W} (adapters : list (ModelAdapter W)) prompt w calls :
  run (spy <$> adapters) prompt (w, calls) =
    match run adapters prompt w with
    | (Return rs, w') =>
        (Return rs,
         (w', calls ++ ((λ a, (name a, prompt)) <$> adapters)))
    | (Raise e, w') =>
        (Raise e,
         (w', calls ++ ((λ a, (name a, prompt)) <$> adapters)))
    end.
Proof.
  revert w calls.
  induction adapters as [|adapter rest IH]; intros w calls.
  - rewrite !run_nil. simpl. by rewrite app_nil_r.
  - rewrite fmap_cons, !run_cons. simpl.
    destruct (generate adapter prompt w) as [o w1]. simpl.
    rewrite IH.
    destruct (run rest prompt w1) as [[rs|e] w2];
      by rewrite <- app_assoc; destruct o.
Qed.

(** ** Properties of the runner *)

(** C1: for every sequence of N adapters and every prompt, [run]
    returns a list of exactly N results, and the result at position i
    is the one produced by the adapter at position i, invoked after
    the adapters before it. *)
Theorem run_count_and_order {W} (adapters : list (ModelAdapter W))
    (prompt : string) (w : W) :
  ∃ results,
    run adapters prompt w = (Return results, world_after adapters prompt w)
    ∧ length results = length adapters
    ∧ ∀ i adapter,
        adapters !! i = Some adapter →
        results !! i =
          Some (entry adapter
                  (generate adapter prompt
                     (world_after (take i adapters) prompt w)).1).
Proof.
  destruct (run_total adapters prompt w) as [results Hrun].
  exists results. split; [done|]. split.
  - eapply run_length, Hrun.
  - intros i adapter Hi. eapply run_lookup; eauto.
Qed.

(** C2: if the adapter at position i raises during [generate], [run]
    puts at position i an ErrorResult with that adapter's name and the
    string of the error, and goes on with the adapters after it from
    the state the failed call left; the results before and after it are
    those obtained had the adapter returned a value instead. *)
Theorem run_isolates_failure {W} (pre post : list (ModelAdapter W))
    (adapter : ModelAdapter W) (prompt : string) (w w1 : W) (e : Exception) :
  generate adapter prompt (world_after pre prompt w) = (Raise e, w1) →
  ∃ before after,
    run pre prompt w = (Return before, world_after pre prompt w)
    ∧ length before = length pre
    ∧ run post prompt w1 = (Return after, world_after post prompt w1)
    ∧ run (pre ++ adapter :: post) prompt w =
        (Return (before ++ ErrorResult (name adapter) (exc_str e) :: after),
         world_after post prompt w1)
    ∧ ∀ adapter' r,
        generate adapter' prompt (world_after pre prompt w) = (Return r, w1) →
        run (pre ++ adapter' :: post) prompt w =
          (Return (before ++ r :: after), world_after post prompt w1).
Proof.
  intros Hraise.
  destruct (run_total pre prompt w) as [before Hpre].
  destruct (run_total post prompt w1) as [after Hpost].
  exists before, after. split; [done|]. split; [eapply run_length, Hpre|].
  split; [done|]. split.
  - eapply run_app; [exact Hpre|].
    rewrite run_cons, Hraise. simpl. by rewrite Hpost.
  - intros adapter' r Hret.
    eapply run_app; [exact Hpre|].
    rewrite run_cons, Hret. simpl. by rewrite Hpost.
Qed.

Lemma run_isolates_failure_witness :
  let failed := generate OpenAIAdapter.adapter "hi" half_down_world in
  failed.1 =
    Raise (mkException "AuthenticationError" "Incorrect API key provided")
  ∧ ∃ after,
      length after = 1%nat
      ∧ run [OpenAIAdapter.adapter; GeminiAdapter.adapter] "hi"
          half_down_world =
          (Return
             (ErrorResult "OpenAI GPT-4.1-mini" "Incorrect API key provided"
                :: after),
           world_after [GeminiAdapter.adapter] "hi" failed.2).
Proof.
  split; [reflexivity|].
  destruct (run_isolates_failure [] [GeminiAdapter.adapter]
              OpenAIAdapter.adapter "hi" half_down_world
              (generate OpenAIAdapter.adapter "hi" half_down_world).2
              (mkException "AuthenticationError" "Incorrect API key provided")
              eq_refl)
    as (before & after & Hpre & Hlen & Hpost & Hrun & _).
  destruct before; [|discriminate Hlen].
  exists after. split; [|exact Hrun].
  apply (run_length _ _ _ _ _ Hpost).
Defined.

(** C4, as stated, fails: [run] appends whatever dictionary [generate]
    returns, so an adapter that returns one with the key "error"
    without raising yields a result that carries the error field, has
    the shape of an ErrorResult and is reported by [main] as an
    error. *)
Lemma error_field_without_raise :
  let adapter := @fixed_adapter unit "Shy" (ErrorResult "Shy" "quota") in
  generate adapter "hi" tt = (Return (ErrorResult "Shy" "quota"), tt)
  ∧ ∃ r,
      run [adapter] "hi" tt = (Return [r], tt)
      ∧ r !! "error" = Some (VStr "quota")
      ∧ contains r "error" = true
      ∧ is_error_result r
      ∧ print_block r [] =
          (Return tt,
           [[VStr "Provider:"; VStr "Shy"];
            [VStr "ERROR:"; VStr "quota"];
            [VStr (str_mul "-" 60)]]).
Proof.
  split; [reflexivity|]. eexists. split; [reflexivity|].
  split; [reflexivity|]. split; [reflexivity|].
  split; [by eexists _, _ | reflexivity].
Qed.

(** C4, amended: every run yields exactly one result per adapter; for
    adapters whose [generate] returns a GenerationResult, the result at
    position i has the key "error" exactly when adapter i raised: it is
    an ErrorResult then and a GenerationResult otherwise, never both,
    and [main] prints the error block or the metrics block
    accordingly. *)
Theorem run_one_result_per_adapter {W} (adapters : list (ModelAdapter W))
    (prompt : string) (w : W) :
  Forall honours_contract adapters →
  ∃ results,
    run adapters prompt w = (Return results, world_after adapters prompt w)
    ∧ length results = length adapters
    ∧ (∀ out, ∃ out', report results out = (Return tt, out'))
    ∧ ∀ i adapter,
        adapters !! i = Some adapter →
        ∃ r,
          results !! i = Some r
          ∧ ¬ (is_generation_result r ∧ is_error_result r)
          ∧ match (generate adapter prompt
                     (world_after (take i adapters) prompt w)).1 with
            | Raise e =>
                is_error_result r
                ∧ ¬ is_generation_result r
                ∧ contains r "error" = true
                ∧ ∀ out,
                    print_block r out =
                      (Return tt,
                       out ++ [[VStr "Provider:"; VStr (name adapter)];
                               [VStr "ERROR:"; VStr (exc_str e)];
                               [VStr (str_mul "-" 60)]])
            | Return result =>
                r = result
                ∧ is_generation_result r
                ∧ ¬ is_error_result r
                ∧ contains r "error" = false
                ∧ ∃ provider text latency tokens,
                    ∀ out,
                      print_block r out =
                        (Return tt,
                         out ++ [[VStr "Provider:"; VStr provider];
                                 [VStr "Latency:"; VFloat latency;
                                  VStr "seconds"];
                                 [VStr "Token Count:"; VInt tokens];
                                 [VStr "Response:"];
                                 [text];
                                 [VStr (str_mul "-" 60)]])
            end.
Proof.
  intros Hcontract.
  destruct (run_total adapters prompt w) as [results Hrun].
  exists results. split; [done|]. split; [eapply run_length, Hrun|].
  split; [intros out; eapply report_total, run_shapes; eauto|].
  intros i adapter Hi.
  pose proof (run_lookup _ _ _ _ _ _ _ Hrun Hi) as Hr.
  eexists. split; [exact Hr|].
  split; [intros [Hg He]; eauto with shapes|].
  destruct (generate adapter prompt _) as [[result|e] w1] eqn:Hgen; simpl.
  - assert (is_generation_result result) as Hshape.
    { rewrite Forall_lookup in Hcontract.
      eapply (Hcontract i adapter Hi), Hgen. }
    split; [done|]. split; [done|].
    split; [intros He; eauto with shapes|].
    split; [auto with shapes|].
    destruct Hshape as (p & t & l & n & ->).
    exists p, t, l, n. intros out. apply print_block_generation.
  - rewrite error_dict_ErrorResult.
    assert (is_error_result (ErrorResult (name adapter) (exc_str e)))
      as Hshape by (by eexists _, _).
    split; [done|].
    split; [intros Hg; eauto with shapes|].
    split; [auto with shapes|]. intros out. apply print_block_error.
Qed.

Lemma run_one_result_per_adapter_witness :
  Forall honours_contract [OpenAIAdapter.adapter; GeminiAdapter.adapter]
  ∧ ∃ results,
      run [OpenAIAdapter.adapter; GeminiAdapter.adapter] "hi" half_down_world
        = (Return results,
           world_after [OpenAIAdapter.adapter; GeminiAdapter.adapter] "hi"
             half_down_world)
      ∧ length results = 2%nat.
Proof.
  assert (Forall honours_contract
            [OpenAIAdapter.adapter; GeminiAdapter.adapter]) as Hc.
  { repeat constructor.
    - exact openai_honours_contract.
    - exact gemini_honours_contract. }
  split; [exact Hc|].
  destruct (run_one_result_per_adapter
              [OpenAIAdapter.adapter; GeminiAdapter.adapter] "hi"
              half_down_world Hc) as (results & Hrun & Hlen & _ & _).
  exists results. split; [exact Hrun | exact Hlen].
Defined.

(** C5: an adapter whose [generate] always returns one fixed value has
    exactly that value, unchanged, at its position in what [run]
    returns. *)
Theorem run_passes_fixed_result {W} (pre post : list (ModelAdapter W))
    (adapter : ModelAdapter W) (fixed : dict) (prompt : string) (w : W) :
  (∀ p w0, (generate adapter p w0).1 = Return fixed) →
  ∃ results,
    run (pre ++ adapter :: post) prompt w =
      (Return results, world_after (pre ++ adapter :: post) prompt w)
    ∧ results !! length pre = Some fixed.
Proof.
  intros Hfixed.
  destruct (run_total (pre ++ adapter :: post) prompt w) as [results Hrun].
  exists results. split; [done|].
  erewrite run_lookup; [|exact Hrun|by apply list_lookup_middle].
  by rewrite Hfixed.
Qed.

Lemma run_passes_fixed_result_witness :
  let fixed := GenerationResult "Mock" (VStr "forty-two") (1 # 4) 2 in
  (∀ p (w0 : World),
     (generate (fixed_adapter "Mock" fixed) p w0).1 = Return fixed)
  ∧ ∃ results,
      (run [OpenAIAdapter.adapter; fixed_adapter "Mock" fixed;
            GeminiAdapter.adapter] "hi" quiet_world).1 = Return results
      ∧ results !! 1%nat = Some fixed.
Proof.
  intros fixed. split; [reflexivity|].
  destruct (run_passes_fixed_result [OpenAIAdapter.adapter]
              [GeminiAdapter.adapter] (fixed_adapter "Mock" fixed) fixed
              "hi" quiet_world (λ _ _, eq_refl)) as (results & Hrun & Hat).
  exists results. split; [|exact Hat].
  simpl in Hrun. by rewrite Hrun.
Defined.

(** C6, as stated, fails: the runner hands on whatever [generate]
    returns, so (a) a test double with negative metrics keeps them, and
    (b) the OpenAI adapter reports a negative latency when the clock is
    set back during the call. *)
Lemma negative_metrics_pass_through :
  (let adapter :=
     @fixed_adapter unit "Mock"
       (GenerationResult "Mock" (VStr "ok") (-1 # 2) (-3)) in
   run [adapter] "hi" tt =
     (Return [GenerationResult "Mock" (VStr "ok") (-1 # 2) (-3)], tt)
   ∧ ¬ (0 ≤ -3)%Z ∧ ¬ (0 <= -1 # 2)%Q)
  ∧ (∃ w',
       run [OpenAIAdapter.adapter] "hi" set_back_world =
         (Return
            [GenerationResult "OpenAI GPT-4.1-mini" (VStr "ok") (-1 # 2) 7],
          w')
       ∧ ¬ (0 <= -1 # 2)%Q).
Proof.
  split.
  - split; [reflexivity|]. split; [lia|]. by intros H.
  - eexists. split; [reflexivity|]. by intros H.
Qed.

(** C6, amended: for the OpenAI and Gemini adapters, if the adapter at
    position i succeeds while the clock is not set back between its two
    readings and the usage the vendor reports is not negative, the
    result at position i is a GenerationResult with token count >= 0
    and latency >= 0. *)
Theorem shipped_adapter_metrics_nonneg (adapters : list (ModelAdapter World))
    (prompt : string) (w : World) (i : nat) (adapter : ModelAdapter World)
    (r : dict) (w' : World) :
  adapters !! i = Some adapter →
  adapter = OpenAIAdapter.adapter ∨ adapter = GeminiAdapter.adapter →
  generate adapter prompt (world_after (take i adapters) prompt w)
    = (Return r, w') →
  clock_not_set_back (world_after (take i adapters) prompt w) →
  reported_usage_nonneg (world_after (take i adapters) prompt w) prompt →
  ∃ results,
    run adapters prompt w = (Return results, world_after adapters prompt w)
    ∧ results !! i = Some r
    ∧ ∃ provider text latency tokens,
        r = GenerationResult provider text latency tokens
        ∧ (0 ≤ tokens)%Z ∧ (0 <= latency)%Q.
Proof.
  intros Hi Hshipped Hgen Hclock [Hopenai Hgemini].
  destruct (run_total adapters prompt w) as [results Hrun].
  exists results. split; [done|]. split.
  { erewrite run_lookup; [|exact Hrun|exact Hi]. by rewrite Hgen. }
  set (wi := world_after (take i adapters) prompt w) in *.
  assert (0 <= round (clock wi (S (clock_reads wi))
                      - clock wi (clock_reads wi)) 2)%Q as Hlatency.
  { apply round_nonneg. unfold clock_not_set_back in Hclock. lra. }
  destruct Hshipped as [-> | ->]; open_generate Hgen response Hvendor;
    eexists _, _, _, _; (split; [done|]); (split; [|done]).
  - destruct (usage response) as [u|] eqn:Hu; [|done].
    by apply (Hopenai response).
  - eapply Hgemini; eauto.
  - apply len_nonneg.
Qed.

Lemma shipped_adapter_metrics_nonneg_witness :
  ∃ r,
    (generate GeminiAdapter.adapter "hi"
       (world_after [OpenAIAdapter.adapter] "hi" half_down_world)).1
      = Return r
    ∧ r = GenerationResult "Google Gemini 1.5 Flash" (VStr "two words")
            (1 # 4) 12
    ∧ ∃ results,
        (run [OpenAIAdapter.adapter; GeminiAdapter.adapter] "hi"
           half_down_world).1 = Return results
        ∧ results !! 1%nat = Some r.
Proof.
  eexists. split; [reflexivity|]. split; [reflexivity|].
  destruct (shipped_adapter_metrics_nonneg
              [OpenAIAdapter.adapter; GeminiAdapter.adapter] "hi"
              half_down_world 1 GeminiAdapter.adapter _ _
              eq_refl (or_intror eq_refl) eq_refl)
    as (results & Hrun & Hat & _).
  - by vm_compute.
  - split; intros response u; [by intros [=]|].
    intros [= <-] [= <-]. by vm_compute.
  - exists results. split; [|exact Hat]. by rewrite Hrun.
Defined.

(** C7, as stated, fails: an exception raised without a message has the
    empty string as its [str], and that is what the ErrorResult
    carries. *)
Lemma error_message_may_be_empty :
  let adapter := @failing_adapter unit "Silent" (mkException "TimeoutError" "") in
  generate adapter "hi" tt = (Raise (mkException "TimeoutError" ""), tt)
  ∧ ∃ r,
      run [adapter] "hi" tt = (Return [r], tt)
      ∧ r !! "provider" = Some (VStr "Silent")
      ∧ r !! "error" = Some (VStr "").
Proof. split; [reflexivity|]. eexists. by repeat split. Qed.

(** C7, amended: if the adapter at position i raises, the result at
    position i is the ErrorResult with that adapter's name as provider
    and [str(e)] of the raised exception as error message; the message
    is non-empty whenever [str(e)] is. *)
Theorem run_error_entry {W} (adapters : list (ModelAdapter W))
    (prompt : string) (w w' : W) (i : nat) (adapter : ModelAdapter W)
    (e : Exception) :
  adapters !! i = Some adapter →
  generate adapter prompt (world_after (take i adapters) prompt w)
    = (Raise e, w') →
  ∃ results r,
    run adapters prompt w = (Return results, world_after adapters prompt w)
    ∧ results !! i = Some r
    ∧ r = ErrorResult (name adapter) (exc_str e)
    ∧ r !! "provider" = Some (VStr (name adapter))
    ∧ r !! "error" = Some (VStr (exc_str e))
    ∧ (exc_str e ≠ EmptyString → r !! "error" ≠ Some (VStr EmptyString)).
Proof.
  intros Hi Hgen.
  destruct (run_total adapters prompt w) as [results Hrun].
  exists results, (ErrorResult (name adapter) (exc_str e)).
  split; [done|]. split.
  { erewrite run_lookup; [|exact Hrun|exact Hi]. by rewrite Hgen. }
  split; [done|]. split; [done|]. split; [done|].
  intros Hne. rewrite ErrorResult_error. by intros [= ?].
Qed.

Lemma run_error_entry_witness :
  (generate OpenAIAdapter.adapter "hi"
     (world_after [] "hi" half_down_world)).1
    = Raise (mkException "AuthenticationError" "Incorrect API key provided")
  ∧ ∃ results,
      (run [OpenAIAdapter.adapter; GeminiAdapter.adapter] "hi"
         half_down_world).1 = Return results
      ∧ results !! 0%nat =
          Some (ErrorResult "OpenAI GPT-4.1-mini"
                  "Incorrect API key provided").
Proof.
  split; [reflexivity|].
  destruct (run_error_entry
              [OpenAIAdapter.adapter; GeminiAdapter.adapter] "hi"
              half_down_world _ 0 OpenAIAdapter.adapter _ eq_refl eq_refl)
    as (results & r & Hrun & Hat & -> & _).
  exists results. split; [|exact Hat]. by rewrite Hrun.
Defined.

(** C8: with the empty string as prompt, [run] still returns one result
    per adapter and calls every adapter's [generate] exactly once, in
    order, with the empty string; the OpenAI and Gemini adapters send it
    to their vendor as it is, one request each, and raise nothing
    before that call: the OpenAI adapter raises exactly when the vendor
    call does, the Gemini adapter when the vendor call does or when the
    answer has neither usage metadata nor text. *)
Theorem empty_prompt_invokes_each_adapter_once :
  (∀ W (adapters : list (ModelAdapter W)) (w : W),
     ∃ results,
       run adapters EmptyString w =
         (Return results, world_after adapters EmptyString w)
       ∧ length results = length adapters
       ∧ run (spy <$> adapters) EmptyString (w, []) =
           (Return results,
            (world_after adapters EmptyString w,
             (λ a, (name a, EmptyString)) <$> adapters)))
  ∧ (∀ w : World,
       let w' :=
         world_after [OpenAIAdapter.adapter; GeminiAdapter.adapter]
           EmptyString w in
       openai_requests w' =
         openai_requests w ++ [("gpt-4.1-mini", EmptyString)]
       ∧ gemini_requests w' =
           gemini_requests w ++ [("gemini-1.5-flash", EmptyString)])
  ∧ (∀ (w : World) e,
       (OpenAIAdapter.generate EmptyString w).1 = Raise e ↔
       openai_backend w (openai_requests w) ("gpt-4.1-mini", EmptyString)
         = Raise e)
  ∧ (∀ (w : World) e,
       (GeminiAdapter.generate EmptyString w).1 = Raise e ↔
       gemini_backend w (gemini_requests w) ("gemini-1.5-flash", EmptyString)
         = Raise e
       ∨ ∃ response,
           gemini_backend w (gemini_requests w)
             ("gemini-1.5-flash", EmptyString) = Return response
           ∧ usage_metadata response = None
           ∧ text response = None
           ∧ e = no_split).
Proof.
  split; [|split; [|split]].
  - intros W adapters w.
    destruct (run_total adapters EmptyString w) as [results Hrun].
    exists results. split; [done|]. split; [eapply run_length, Hrun|].
    by rewrite run_spy, Hrun.
  - intros w. unfold world_after. rewrite !run_cons, run_nil. simpl.
    rewrite openai_generate_eq. simpl.
    destruct (openai_backend w _ _); simpl;
      rewrite gemini_generate_eq; simpl;
      (destruct (gemini_backend w _ _) as [response|?]; [|done]);
      (destruct (usage_metadata response); [done|]);
      by destruct (text response).
  - intros w e. rewrite openai_generate_eq. simpl.
    destruct (openai_backend w _ _); simpl; split; by intros [= ->].
  - intros w e. rewrite gemini_generate_eq. simpl.
    destruct (gemini_backend w _ _) as [response|e'].
    + destruct (usage_metadata response) as [u|] eqn:Hu;
        [|destruct (text response) as [t|] eqn:Ht]; simpl.
      * split; [done|]. intros [[=] | (? & [= <-] & ? & _)]. congruence.
      * split; [done|]. intros [[=] | (? & [= <-] & _ & ? & _)]. congruence.
      * split.
        -- intros [= <-]. right. by exists response.
        -- by intros [[=] | (? & _ & _ & _ & ->)].
    + simpl. split.
      * intros [= ->]. by left.
      * by intros [[= ->] | (? & [=] & _)].
Qed.

(** C9: for a successful call of the OpenAI or the Gemini adapter, the
    latency in the result is the time elapsed between the two clock
    readings rounded to two decimal digits (a whole number of
    hundredths, at most half a hundredth away from the elapsed time),
    and this is the value [main] prints on the latency line. *)
Theorem latency_is_elapsed_rounded (adapter : ModelAdapter World)
    (prompt : string) (w w' : World) (r : dict) :
  adapter = OpenAIAdapter.adapter ∨ adapter = GeminiAdapter.adapter →
  generate adapter prompt w = (Return r, w') →
  let elapsed := (clock w (S (clock_reads w)) - clock w (clock_reads w))%Q in
  r !! "latency" = Some (VFloat (round elapsed 2))
  ∧ (round elapsed 2 == inject_Z (round_half_even (elapsed * 100)) / 100)%Q
  ∧ (elapsed - (1 # 200) <= round elapsed 2)%Q
  ∧ (round elapsed 2 <= elapsed + (1 # 200))%Q
  ∧ ∃ provider text tokens,
      ∀ out,
        print_block r out =
          (Return tt,
           out ++ [[VStr "Provider:"; VStr provider];
                   [VStr "Latency:"; VFloat (round elapsed 2); VStr "seconds"];
                   [VStr "Token Count:"; VInt tokens];
                   [VStr "Response:"];
                   [text];
                   [VStr (str_mul "-" 60)]]).
Proof.
  intros Hshipped Hgen elapsed.
  assert (∃ provider text tokens,
            r = GenerationResult provider text (round elapsed 2) tokens)
    as (provider & text & tokens & ->).
  { destruct Hshipped as [-> | ->]; open_generate Hgen response Hvendor;
      by eexists _, _, _. }
  split; [done|]. split; [apply round_2_hundredths|].
  destruct (round_2_close elapsed) as [Hlo Hhi].
  split; [done|]. split; [done|].
  exists provider, text, tokens. intros out. apply print_block_generation.
Qed.

Lemma latency_is_elapsed_rounded_witness :
  ∃ r,
    (generate OpenAIAdapter.adapter "hi" quiet_world).1 = Return r
    ∧ r !! "latency" = Some (VFloat (31 # 25)).
Proof.
  eexists. split; [reflexivity|].
  exact (proj1 (latency_is_elapsed_rounded OpenAIAdapter.adapter "hi"
                  quiet_world _ _ (or_introl eq_refl) eq_refl)).
Defined.

(** C3, as stated, fails for the OpenAI adapter: without usage in the
    response its token count is 0, here for a text of three words. *)
Lemma openai_does_not_count_words :
  ∃ r w',
    openai_backend quiet_world (openai_requests quiet_world)
      ("gpt-4.1-mini", "hi") = Return (mkOpenAIResponse "hello  big world" None)
    ∧ OpenAIAdapter.generate "hi" quiet_world = (Return r, w')
    ∧ r !! "text" = Some (VStr "hello  big world")
    ∧ r !! "tokens" = Some (VInt 0)
    ∧ len (split "hello  big world") = 3.
Proof. eexists _, _. by repeat split. Qed.

(** C3, amended: when the vendor response carries no usage metadata,
    the Gemini adapter returns as token count the number of
    whitespace-separated words of the response text, and the OpenAI
    adapter returns 0. *)
Theorem fallback_token_count (prompt : string) (w : World) :
  (∀ response returned,
     gemini_backend w (gemini_requests w) ("gemini-1.5-flash", prompt)
       = Return response →
     usage_metadata response = None →
     text response = Some returned →
     ∃ r w',
       GeminiAdapter.generate prompt w = (Return r, w')
       ∧ r !! "text" = Some (VStr returned)
       ∧ r !! "tokens" = Some (VInt (len (split returned))))
  ∧ (∀ response,
       openai_backend w (openai_requests w) ("gpt-4.1-mini", prompt)
         = Return response →
       usage response = None →
       ∃ r w',
         OpenAIAdapter.generate prompt w = (Return r, w')
         ∧ r !! "text" = Some (VStr (output_text response))
         ∧ r !! "tokens" = Some (VInt 0)).
Proof.
  split.
  - intros response returned Hvendor Husage Htext.
    rewrite gemini_generate_eq. simpl. rewrite Hvendor, Husage, Htext.
    by eexists _, _.
  - intros response Hvendor Husage.
    rewrite openai_generate_eq. simpl. rewrite Hvendor, Husage.
    by eexists _, _.
Qed.

(** C10: when the vendor response reports no usage, the OpenAI adapter
    returns a GenerationResult whose token count is exactly 0, whatever
    the number of words in the response text. *)
Theorem openai_tokens_zero_without_usage (prompt : string) (w : World)
    (response : OpenAIResponse) :
  openai_backend w (openai_requests w) ("gpt-4.1-mini", prompt)
    = Return response →
  usage response = None →
  ∃ w',
    OpenAIAdapter.generate prompt w =
      (Return
         (GenerationResult OpenAIAdapter.name (VStr (output_text response))
            (round (clock w (S (clock_reads w)) - clock w (clock_reads w)) 2)
            0),
       w').
Proof.
  intros Hvendor Husage.
  rewrite openai_generate_eq. simpl. rewrite Hvendor, Husage. by eexists.
Qed.

Lemma openai_tokens_zero_without_usage_witness :
  ∃ w',
    OpenAIAdapter.generate "hi" quiet_world =
      (Return
         (GenerationResult "OpenAI GPT-4.1-mini" (VStr "hello  big world")
            (31 # 25) 0),
       w').
Proof.
  exact (openai_tokens_zero_without_usage "hi" quiet_world
           (mkOpenAIResponse "hello  big world" None) eq_refl eq_refl).
Defined.

(** * Further properties of the code *)

(** ** Further properties of the runner *)

(** X1: running a sequence of adapters is running its first part and then
    its second part from the state the first part left: the results
    are the two result lists, one after the other. *)
Theorem run_concat {W} (pre post : list (ModelAdapter W)) (prompt : string)
    (w : W) :
  ∃ before after,
    run pre prompt w = (Return before, world_after pre prompt w)
    ∧ run post prompt (world_after pre prompt w) =
        (Return after, world_after (pre ++ post) prompt w)
    ∧ run (pre ++ post) prompt w =
        (Return (before ++ after), world_after (pre ++ post) prompt w)
    ∧ length before = length pre
    ∧ length after = length post.
Proof.
  destruct (run_total pre prompt w) as [before Hpre].
  destruct (run_total post prompt (world_after pre prompt w))
    as [after Hpost].
  pose proof (run_app _ _ _ _ _ _ _ _ Hpre Hpost) as Hall.
  assert (world_after (pre ++ post) prompt w
          = world_after post prompt (world_after pre prompt w)) as Hw.
  { unfold world_after at 1. by rewrite Hall. }
  exists before, after. rewrite Hw.
  repeat split; try done; by eapply run_length.
Qed.

(** ** The shipped adapters and the outside world *)

(** One call of a shipped adapter: what it leaves of the world. *)
Lemma shipped_generate_frame (v : vendor) (prompt : string) (w : World) :
  let o := (generate (shipped v) prompt w).1 in
  let w' := (generate (shipped v) prompt w).2 in
  clock w' = clock w
  ∧ openai_backend w' = openai_backend w
  ∧ gemini_backend w' = gemini_backend w
  ∧ openai_requests w' =
      openai_requests w
      ++ (if is_openai v then [("gpt-4.1-mini", prompt)] else [])
  ∧ gemini_requests w' =
      gemini_requests w
      ++ (if is_gemini v then [("gemini-1.5-flash", prompt)] else [])
  ∧ clock_reads w' =
      (clock_reads w + if vendor_answers v prompt w then 2 else 1)%nat
  ∧ entry (shipped v) o !! "provider" = Some (VStr (name (shipped v)))
  ∧ (contains (entry (shipped v) o) "error" =
       match o with Return _ => false | Raise _ => true end)
  ∧ match o with
    | Return _ => vendor_answers v prompt w = true
    | Raise _ => True
    end.
Proof.
  destruct v; simpl.
  - rewrite openai_generate_eq. simpl.
    destruct (openai_backend w _ _); simpl;
      rewrite ?app_nil_r; repeat split; try done; f_equal; lia.
  - rewrite gemini_generate_eq. simpl.
    destruct (gemini_backend w _ _) as [response|e]; simpl.
    + destruct (usage_metadata response);
        [|destruct (text response)]; simpl;
        rewrite ?app_nil_r; repeat split; try done; f_equal; lia.
    + rewrite ?app_nil_r. repeat split; try done; f_equal; lia.
Qed.

Lemma shipped_run_requests_aux (vs : list vendor) (prompt : string)
    (w : World) :
  let w' := world_after (shipped <$> vs) prompt w in
  openai_requests w' =
    openai_requests w
    ++ replicate (length (filter is_openai vs)) ("gpt-4.1-mini", prompt)
  ∧ gemini_requests w' =
      gemini_requests w
      ++ replicate (length (filter is_gemini vs)) ("gemini-1.5-flash", prompt)
  ∧ openai_backend w' = openai_backend w
  ∧ gemini_backend w' = gemini_backend w
  ∧ clock w' = clock w.
Proof.
  revert w. induction vs as [|v vs IH]; intros w.
  - simpl. by rewrite !app_nil_r.
  - rewrite fmap_cons. simpl. rewrite world_after_cons.
    destruct (shipped_generate_frame v prompt w)
      as (Hc & Ho & Hg & Hro & Hrg & _).
    destruct (IH (generate (shipped v) prompt w).2)
      as (IHo & IHg & IHbo & IHbg & IHc).
    rewrite IHo, IHg, IHbo, IHbg, IHc, Hro, Hrg, Ho, Hg, Hc.
    repeat split; try done.
    + rewrite filter_cons. unfold is_gemini.
      destruct v; simpl; by rewrite <- ?app_assoc, ?app_nil_r.
    + rewrite filter_cons. unfold is_gemini.
      destruct v; simpl; by rewrite <- ?app_assoc, ?app_nil_r.
Qed.

(** X3: in a run over shipped adapters each vendor receives one request
    per occurrence of its adapter, with the fixed model identifier and
    the prompt as given, and nothing else of the vendors or of the
    clock's readings is touched. *)
Theorem shipped_run_requests (vs : list vendor) (prompt : string)
    (w : World) :
  let w' := world_after (shipped <$> vs) prompt w in
  openai_requests w' =
    openai_requests w
    ++ replicate (length (filter is_openai vs)) ("gpt-4.1-mini", prompt)
  ∧ gemini_requests w' =
      gemini_requests w
      ++ replicate (length (filter is_gemini vs)) ("gemini-1.5-flash", prompt)
  ∧ openai_backend w' = openai_backend w
  ∧ gemini_backend w' = gemini_backend w
  ∧ clock w' = clock w.
Proof. apply shipped_run_requests_aux. Qed.

(** X4: a shipped adapter reads the clock once before the vendor call
    and once more only when that call comes back with a response, so a
    run reads it once per adapter and once more per answered vendor
    call; every result without the key "error" comes from an answered
    call. *)
Theorem shipped_run_clock_reads (vs : list vendor) (prompt : string)
    (w : World) :
  ∃ results,
    run (shipped <$> vs) prompt w =
      (Return results, world_after (shipped <$> vs) prompt w)
    ∧ clock_reads (world_after (shipped <$> vs) prompt w) =
        (clock_reads w + length vs + answered vs prompt w)%nat
    ∧ (length (successes results) ≤ answered vs prompt w)%nat
    ∧ (answered vs prompt w ≤ length vs)%nat.
Proof.
  revert w. induction vs as [|v vs IH]; intros w.
  - exists []. split; [done|]. unfold world_after. simpl. lia.
  - destruct (IH (generate (shipped v) prompt w).2)
      as (rs & Hrun & Hreads & Hlo & Hhi).
    rewrite fmap_cons, world_after_cons, run_cons, Hrun.
    eexists. split; [done|]. rewrite Hreads.
    destruct (shipped_generate_frame v prompt w)
      as (_ & _ & _ & _ & _ & Hr & _ & He & Ha).
    rewrite Hr. unfold successes in *. rewrite filter_cons. simpl answered.
    destruct (generate (shipped v) prompt w) as [[r|e] w1]; simpl in *.
    + rewrite Ha, decide_True by done. simpl. lia.
    + rewrite decide_False by (by rewrite He).
      destruct (vendor_answers v prompt w); simpl; lia.
Qed.

(** X5: in a run over shipped adapters the result at position i, success
    or error, has the name of the adapter at position i as provider. *)
Theorem shipped_run_providers (vs : list vendor) (prompt : string)
    (w : World) :
  ∃ results,
    run (shipped <$> vs) prompt w =
      (Return results, world_after (shipped <$> vs) prompt w)
    ∧ (λ r, r !! "provider") <$> results =
        (λ v, Some (VStr (name (shipped v)))) <$> vs.
Proof.
  revert w. induction vs as [|v vs IH]; intros w.
  - by exists [].
  - destruct (IH (generate (shipped v) prompt w).2) as (rs & Hrun & Hnames).
    rewrite fmap_cons, world_after_cons, run_cons, Hrun.
    eexists. split; [done|]. rewrite !fmap_cons, Hnames. f_equal.
    by destruct (shipped_generate_frame v prompt w)
      as (_ & _ & _ & _ & _ & _ & Hp & _).
Qed.

(** ** The word-count estimate *)

Lemma append_empty_l s1 s2 :
  String.append s1 s2 = EmptyString → s1 = EmptyString.
Proof. by destruct s1. Qed.

Lemma append_assoc s1 s2 s3 :
  String.append (String.append s1 s2) s3 =
    String.append s1 (String.append s2 s3).
Proof.
  induction s1 as [|c s1 IH]; [done|].
  change (String c (String.append (String.append s1 s2) s3)
          = String c (String.append s1 (String.append s2 s3))).
  by rewrite IH.
Qed.

Lemma join_split_from s word :
  join (split_from s word) = String.append word (non_space s).
Proof.
  revert word. induction s as [|c rest IH]; intros word; simpl.
  - by destruct word.
  - destruct (isspace c).
    + destruct word; [by rewrite IH|]. simpl join. by rewrite IH.
    + by rewrite IH, append_snoc.
Qed.

Lemma split_from_count s word :
  (2 * length (split_from s word) ≤
   String.length s + match word with EmptyString => 1 | _ => 2 end)%nat.
Proof.
  revert word. induction s as [|c rest IH]; intros word; simpl.
  - destruct word; simpl; lia.
  - destruct (isspace c).
    + pose proof (IH EmptyString) as Hrest.
      destruct word; simpl in *; lia.
    + pose proof (IH (String.append word (String c EmptyString))) as Hrest.
      destruct (String.append word (String c EmptyString)) eqn:Happ.
      { by apply append_nonempty in Happ. }
      destruct word; lia.
Qed.

Lemma split_count s : (2 * length (split s) ≤ String.length s + 1)%nat.
Proof. apply (split_from_count s EmptyString). Qed.

Lemma split_nil_iff s : split s = [] ↔ non_space s = EmptyString.
Proof.
  pose proof (join_split_from s EmptyString) as Hjoin.
  pose proof (split_words s) as Hwords.
  fold (split s) in Hjoin. change (String.append EmptyString (non_space s))
    with (non_space s) in Hjoin.
  split.
  - intros Hnil. by rewrite Hnil in Hjoin.
  - intros Hblank. rewrite Hblank in Hjoin.
    destruct (split s) as [|word rest]; [done|].
    apply Forall_cons in Hwords as [[Hne _] _].
    simpl in Hjoin. by apply append_empty_l in Hjoin.
Qed.

(** X6: the words counted by [split] are not empty and free of
    whitespace, and put one after the other they are the characters of
    the text that are not whitespace, in the order of the text. *)
Theorem split_keeps_non_space (s : string) :
  join (split s) = non_space s
  ∧ Forall (λ word, word ≠ EmptyString ∧ has_space word = false) (split s).
Proof.
  split; [|apply split_words].
  unfold split. by rewrite join_split_from.
Qed.

(** X7: when Gemini reports no usage metadata, the token count is the
    number of words of the response text: it is 0 exactly when the
    text has no character other than whitespace, and at most half the
    length of the text, rounded up. *)
Theorem gemini_estimate_bounds (prompt : string) (w : World)
    (response : GeminiResponse) (returned : string) :
  gemini_backend w (gemini_requests w) ("gemini-1.5-flash", prompt)
    = Return response →
  usage_metadata response = None →
  text response = Some returned →
  ∃ r w' n,
    GeminiAdapter.generate prompt w = (Return r, w')
    ∧ r !! "tokens" = Some (VInt n)
    ∧ (0 ≤ n)%Z
    ∧ (2 * n ≤ Z.of_nat (String.length returned) + 1)%Z
    ∧ (n = 0%Z ↔ non_space returned = EmptyString).
Proof.
  intros Hvendor Husage Htext.
  rewrite gemini_generate_eq. simpl. rewrite Hvendor, Husage, Htext.
  eexists _, _, _. split; [done|]. split; [done|].
  split; [apply len_nonneg|].
  pose proof (split_count returned) as Hcount.
  split; [unfold len; lia|].
  rewrite <- split_nil_iff. unfold len.
  destruct (split returned); simpl; split; intros; (done || lia).
Qed.

Lemma gemini_estimate_bounds_witness :
  ∃ r w',
    GeminiAdapter.generate "hi" quiet_world = (Return r, w')
    ∧ r !! "tokens" = Some (VInt 3).
Proof.
  destruct (gemini_estimate_bounds "hi" quiet_world
              (mkGeminiResponse (Some " a b c ") None) " a b c "
              eq_refl eq_refl eq_refl)
    as (r & w' & n & Hgen & Htokens & _).
  exists r, w'. split; [exact Hgen|].
  injection Hgen as <- _. exact eq_refl.
Defined.

(** ** Further properties of the report *)

Lemma getitem_Some {W} (r : dict) key v (w : W) :
  r !! key = Some v → getitem r key w = (Return v, w).
Proof. intros H. unfold getitem. by rewrite H. Qed.

Lemma getitem_None {W} (r : dict) key (w : W) :
  r !! key = None → getitem r key w = (Raise (key_error key), w).
Proof. intros H. unfold getitem. by rewrite H. Qed.

Lemma contains_Some (r : dict) key v : r !! key = Some v → contains r key = true.
Proof. intros H. unfold contains. rewrite H. by apply bool_decide_true. Qed.

Lemma contains_None (r : dict) key : r !! key = None → contains r key = false.
Proof.
  intros H. unfold contains. rewrite H. apply bool_decide_false.
  by intros [? ?].
Qed.

(** [print_block], key by key. *)
Lemma print_block_eq (r : dict) (out : stdout) :
  print_block r out =
    match r !! "provider" with
    | None => (Raise (key_error "provider"), out)
    | Some provider =>
        let out1 := out ++ [[VStr "Provider:"; provider]] in
        match r !! "error" with
        | Some error =>
            (Return tt,
             out1 ++ [[VStr "ERROR:"; error]; [VStr (str_mul "-" 60)]])
        | None =>
            match r !! "latency" with
            | None => (Raise (key_error "latency"), out1)
            | Some latency =>
                let out2 :=
                  out1 ++ [[VStr "Latency:"; latency; VStr "seconds"]] in
                match r !! "tokens" with
                | None => (Raise (key_error "tokens"), out2)
                | Some tokens =>
                    let out3 :=
                      out2 ++ [[VStr "Token Count:"; tokens];
                               [VStr "Response:"]] in
                    match r !! "text" with
                    | None => (Raise (key_error "text"), out3)
                    | Some text =>
                        (Return tt,
                         out3 ++ [[text]; [VStr (str_mul "-" 60)]])
                    end
                end
            end
        end
    end.
Proof.
  unfold print_block, bind.
  destruct (r !! "provider") as [p|] eqn:Hp;
    [rewrite (getitem_Some _ _ _ _ Hp) | by rewrite (getitem_None _ _ _ Hp)].
  unfold print at 1.
  destruct (r !! "error") as [e|] eqn:He.
  { rewrite (contains_Some _ _ _ He), (getitem_Some _ _ _ _ He).
    unfold print. by rewrite <- !app_assoc. }
  rewrite (contains_None _ _ He).
  destruct (r !! "latency") as [l|] eqn:Hl;
    [rewrite (getitem_Some _ _ _ _ Hl) | by rewrite (getitem_None _ _ _ Hl)].
  unfold print at 1.
  destruct (r !! "tokens") as [n|] eqn:Hn;
    [rewrite (getitem_Some _ _ _ _ Hn) | by rewrite (getitem_None _ _ _ Hn)].
  unfold print at 1. unfold print at 1.
  destruct (r !! "text") as [t|] eqn:Ht;
    [rewrite (getitem_Some _ _ _ _ Ht)
    | rewrite (getitem_None _ _ _ Ht); simpl; by rewrite <- !app_assoc].
  unfold print. simpl. by rewrite <- !app_assoc.
Qed.

Lemma print_block_length (r : dict) (out out' : stdout) :
  print_block r out = (Return tt, out') →
  length out' =
    (length out + if contains r "error" then 3 else 6)%nat.
Proof.
  rewrite print_block_eq.
  destruct (r !! "provider") as [p|]; [|done].
  destruct (r !! "error") as [e|] eqn:He.
  { rewrite (contains_Some _ _ _ He). intros [= <-].
    rewrite !length_app. simpl. lia. }
  rewrite (contains_None _ _ He).
  destruct (r !! "latency"); [|done]. destruct (r !! "tokens"); [|done].
  destruct (r !! "text"); [|done]. intros [= <-].
  rewrite !length_app. simpl. lia.
Qed.

Lemma report_app (first rest : list dict) (out : stdout) :
  report (first ++ rest) out =
    match report first out with
    | (Return _, out1) => report rest out1
    | (Raise e, out1) => (Raise e, out1)
    end.
Proof.
  revert out. induction first as [|r first IH]; intros out; [done|].
  simpl. unfold bind. destruct (print_block r out) as [[[]|e] out1]; [|done].
  apply IH.
Qed.

(** X10: a result that has the key "error" is reported as an error,
    whatever else it holds: the provider line, the error line and the
    rule, and none of its metrics. *)
Theorem print_block_error_first (r : dict) (provider error : value)
    (out : stdout) :
  r !! "provider" = Some provider →
  r !! "error" = Some error →
  print_block r out =
    (Return tt,
     out ++ [[VStr "Provider:"; provider];
             [VStr "ERROR:"; error];
             [VStr (str_mul "-" 60)]]).
Proof.
  intros Hp He. rewrite print_block_eq, Hp, He. simpl.
  by rewrite <- app_assoc.
Qed.

Lemma print_block_error_first_witness :
  print_block
    (<["error" := VStr "quota"]> (GenerationResult "P" (VStr "text") (1 # 2) 3)) []
  = (Return tt,
     [[VStr "Provider:"; VStr "P"];
      [VStr "ERROR:"; VStr "quota"];
      [VStr (str_mul "-" 60)]]).
Proof.
  exact (print_block_error_first
           (<["error" := VStr "quota"]> (GenerationResult "P" (VStr "text") (1 # 2) 3))
           (VStr "P") (VStr "quota") [] eq_refl eq_refl).
Defined.

(** X11: a block is printed in full exactly when the result has the key
    "provider" and either the key "error" or the three keys "latency",
    "tokens" and "text". *)
Theorem print_block_succeeds_iff (r : dict) (out : stdout) :
  (∃ out', print_block r out = (Return tt, out')) ↔
  is_Some (r !! "provider")
  ∧ (is_Some (r !! "error")
     ∨ is_Some (r !! "latency") ∧ is_Some (r !! "tokens")
       ∧ is_Some (r !! "text")).
Proof.
  rewrite print_block_eq.
  destruct (r !! "provider") as [p|];
    [|split; [by intros [? [=]] | by intros [[? [=]] _]]].
  destruct (r !! "error") as [e|]; [split; eauto|].
  destruct (r !! "latency") as [l|];
    [|split; [by intros [? [=]]
             | intros [_ [[? [=]] | [[? [=]] _]]]]].
  destruct (r !! "tokens") as [n|];
    [|split; [by intros [? [=]]
             | intros [_ [[? [=]] | (_ & [? [=]] & _)]]]].
  destruct (r !! "text") as [t|];
    [|split; [by intros [? [=]]
             | intros [_ [[? [=]] | (_ & _ & [? [=]])]]]].
  split; eauto 10.
Qed.

(** X12: when a key is missing, [KeyError] names the first missing one in
    the order provider, latency, tokens, text; the lines before it are
    already printed, and the rule that ends the block is not. *)
Theorem print_block_missing_key (r : dict) (out : stdout) :
  (r !! "provider" = None →
   print_block r out = (Raise (key_error "provider"), out))
  ∧ (∀ provider,
       r !! "provider" = Some provider → r !! "error" = None →
       r !! "latency" = None →
       print_block r out =
         (Raise (key_error "latency"),
          out ++ [[VStr "Provider:"; provider]]))
  ∧ (∀ provider latency,
       r !! "provider" = Some provider → r !! "error" = None →
       r !! "latency" = Some latency → r !! "tokens" = None →
       print_block r out =
         (Raise (key_error "tokens"),
          out ++ [[VStr "Provider:"; provider];
                  [VStr "Latency:"; latency; VStr "seconds"]]))
  ∧ (∀ provider latency tokens,
       r !! "provider" = Some provider → r !! "error" = None →
       r !! "latency" = Some latency → r !! "tokens" = Some tokens →
       r !! "text" = None →
       print_block r out =
         (Raise (key_error "text"),
          out ++ [[VStr "Provider:"; provider];
                  [VStr "Latency:"; latency; VStr "seconds"];
                  [VStr "Token Count:"; tokens];
                  [VStr "Response:"]])).
Proof.
  split; [|split; [|split]].
  - intros Hp. by rewrite print_block_eq, Hp.
  - intros p Hp He Hl. by rewrite print_block_eq, Hp, He, Hl.
  - intros p l Hp He Hl Hn. rewrite print_block_eq, Hp, He, Hl, Hn.
    simpl. by rewrite <- !app_assoc.
  - intros p l n Hp He Hl Hn Ht.
    rewrite print_block_eq, Hp, He, Hl, Hn, Ht.
    simpl. by rewrite <- !app_assoc.
Qed.

(** X13: the report goes through the results in order and stops at the
    first block that cannot be printed: the results after it are not
    reported. *)
Theorem report_stops_at_first_failure (first rest : list dict) (r : dict)
    (out out1 out2 : stdout) (e : Exception) :
  report first out = (Return tt, out1) →
  print_block r out1 = (Raise e, out2) →
  report (first ++ r :: rest) out = (Raise e, out2).
Proof.
  intros Hfirst Hblock. rewrite report_app, Hfirst. simpl.
  unfold bind. by rewrite Hblock.
Qed.

Lemma report_stops_at_first_failure_witness :
  report [ErrorResult "A" "down"; ∅; ErrorResult "B" "down"] [] =
    (Raise (key_error "provider"),
     [[VStr "Provider:"; VStr "A"];
      [VStr "ERROR:"; VStr "down"];
      [VStr (str_mul "-" 60)]]).
Proof.
  exact (report_stops_at_first_failure [ErrorResult "A" "down"]
           [ErrorResult "B" "down"] ∅ [] _ _ _ eq_refl eq_refl).
Defined.

(** X14: a report that goes through prints three lines for each result
    with the key "error" and six for each other result. *)
Theorem report_length (results : list dict) (out out' : stdout) :
  report results out = (Return tt, out') →
  length out' =
    (length out + 3 * length results + 3 * length (successes results))%nat.
Proof.
  revert out. induction results as [|r results IH]; intros out.
  - intros [= <-]. simpl. lia.
  - simpl. unfold bind.
    destruct (print_block r out) as [[[]|e] out1] eqn:Hblock; [|done].
    intros Hrest. rewrite (IH _ Hrest), (print_block_length _ _ _ Hblock).
    unfold successes. rewrite filter_cons.
    destruct (contains r "error").
    + rewrite decide_False by done. simpl. lia.
    + rewrite decide_True by done. simpl. lia.
Qed.

Lemma report_length_witness :
  ∃ out',
    report [ErrorResult "A" "down"; GenerationResult "B" (VStr "hi") (1 # 4) 1] []
      = (Return tt, out')
    ∧ length out' = 9%nat.
Proof.
  eexists. split; [reflexivity|].
  exact (report_length
           [ErrorResult "A" "down"; GenerationResult "B" (VStr "hi") (1 # 4) 1]
           [] _ eq_refl).
Defined.

(** ** Properties of [main] *)

Lemma print_block_out (r : dict) (out : stdout) :
  print_block r out =
    ((print_block r []).1, out ++ (print_block r []).2).
Proof.
  rewrite !print_block_eq.
  destruct (r !! "provider"); [|by rewrite app_nil_r].
  destruct (r !! "error"); [simpl; by rewrite <- !app_assoc|].
  destruct (r !! "latency"); [|done].
  destruct (r !! "tokens"); [|simpl; by rewrite <- !app_assoc].
  destruct (r !! "text"); simpl; by rewrite <- !app_assoc.
Qed.

Lemma report_out (results : list dict) (out : stdout) :
  report results out =
    ((report results []).1, out ++ (report results []).2).
Proof.
  revert out. induction results as [|r results IH]; intros out.
  - simpl. by rewrite app_nil_r.
  - simpl. unfold bind. rewrite (print_block_out r out).
    destruct (print_block r []) as [[[]|e] block]; simpl; [|done].
    rewrite (IH (out ++ block)), (IH block). simpl.
    by rewrite <- app_assoc.
Qed.

Lemma shipped_pair_contract :
  Forall honours_contract [OpenAIAdapter.adapter; GeminiAdapter.adapter].
Proof.
  repeat constructor.
  - exact openai_honours_contract.
  - exact gemini_honours_contract.
Qed.

Lemma new_adapter_eq (v : vendor) (s : Session) :
  match v with
  | OpenAI => OpenAIAdapter_init
  | Gemini => GeminiAdapter_init
  end s =
    let api_key :=
      environ s !! match v with
                   | OpenAI => "OPENAI_API_KEY"
                   | Gemini => "GEMINI_API_KEY"
                   end in
    let s' :=
      mkSession (environ s) (sdk_init s) (client_calls s ++ [(v, api_key)])
        (stdin s) (shown s) (printed s) (world s) in
    match sdk_init s v api_key with
    | Some e => (Raise e, s')
    | None => (Return (shipped v), s')
    end.
Proof.
  destruct v; simpl;
    unfold OpenAIAdapter_init, GeminiAdapter_init, bind, os_getenv,
      new_client, ret;
    by destruct (sdk_init s _ _).
Qed.

(** [main], once a line has been read. *)
Lemma main_eq (s : Session) (line : string) (rest : list string) :
  stdin s = line :: rest →
  main s =
    let k1 := environ s !! "OPENAI_API_KEY" in
    let k2 := environ s !! "GEMINI_API_KEY" in
    let session calls out w :=
      mkSession (environ s) (sdk_init s) (client_calls s ++ calls) rest
        (shown s ++ ["Enter your prompt: "]) out w in
    match sdk_init s OpenAI k1 with
    | Some e => (Raise e, session [(OpenAI, k1)] (printed s) (world s))
    | None =>
        match sdk_init s Gemini k2 with
        | Some e =>
            (Raise e,
             session [(OpenAI, k1); (Gemini, k2)] (printed s) (world s))
        | None =>
            let '(o, w') :=
              run [OpenAIAdapter.adapter; GeminiAdapter.adapter] line
                (world s) in
            match o with
            | Return results =>
                let '(o', out') :=
                  report results (printed s ++ [[VStr banner]]) in
                (o', session [(OpenAI, k1); (Gemini, k2)] out' w')
            | Raise e =>
                (Raise e,
                 session [(OpenAI, k1); (Gemini, k2)] (printed s) w')
            end
        end
    end.
Proof.
  intros Hline. unfold main, bind at 1, input. rewrite Hline.
  unfold bind at 1. rewrite (new_adapter_eq OpenAI). simpl.
  destruct (sdk_init s OpenAI _); [done|].
  unfold bind at 1. rewrite (new_adapter_eq Gemini). simpl.
  destruct (sdk_init s Gemini _); [by rewrite <- app_assoc|].
  unfold bind, in_world, to_stdout, print. simpl.
  destruct (run _ line (world s)) as [[results|e] w'];
    [|by rewrite <- app_assoc].
  destruct (report results _) as [o' out']. by rewrite <- app_assoc.
Qed.

(** X15: once a line is read and both clients are built, [main] ends
    normally whatever the vendors answer: each vendor has received one
    request with the line as prompt, and the title and then the two
    blocks of the results are printed. *)
Theorem main_completes (s : Session) (line : string) (rest : list string) :
  stdin s = line :: rest →
  sdk_init s OpenAI (environ s !! "OPENAI_API_KEY") = None →
  sdk_init s Gemini (environ s !! "GEMINI_API_KEY") = None →
  ∃ results blocks s',
    main s = (Return tt, s')
    ∧ run [OpenAIAdapter.adapter; GeminiAdapter.adapter] line (world s)
        = (Return results, world s')
    ∧ length results = 2%nat
    ∧ report results [] = (Return tt, blocks)
    ∧ printed s' = printed s ++ [VStr banner] :: blocks
    ∧ stdin s' = rest
    ∧ shown s' = shown s ++ ["Enter your prompt: "]
    ∧ client_calls s' =
        client_calls s
        ++ [(OpenAI, environ s !! "OPENAI_API_KEY");
            (Gemini, environ s !! "GEMINI_API_KEY")]
    ∧ openai_requests (world s') =
        openai_requests (world s) ++ [("gpt-4.1-mini", line)]
    ∧ gemini_requests (world s') =
        gemini_requests (world s) ++ [("gemini-1.5-flash", line)].
Proof.
  intros Hline Hopenai Hgemini.
  destruct (run_total [OpenAIAdapter.adapter; GeminiAdapter.adapter] line
              (world s)) as [results Hrun].
  pose proof (run_shapes _ _ _ _ _ shipped_pair_contract Hrun) as Hshapes.
  destruct (report_total results [] Hshapes) as [blocks Hreport].
  destruct (shipped_run_requests_aux [OpenAI; Gemini] line (world s))
    as (Hro & Hrg & _).
  exists results, blocks. eexists.
  split.
  { rewrite (main_eq _ _ _ Hline). simpl.
    rewrite Hopenai, Hgemini, Hrun, report_out, Hreport. simpl. done. }
  simpl. split; [done|]. split; [exact (run_length _ _ _ _ _ Hrun)|].
  split; [done|]. split; [by rewrite <- app_assoc|].
  split; [done|]. split; [done|]. split; [done|].
  split; [exact Hro | exact Hrg].
Qed.

Lemma main_completes_witness :
  ∃ s',
    main (sample_session "hi" half_down_world) = (Return tt, s')
    ∧ length (printed s') = 10%nat
    ∧ openai_requests (world s') = [("gpt-4.1-mini", "hi")].
Proof.
  destruct (main_completes (sample_session "hi" half_down_world) "hi" []
              eq_refl eq_refl eq_refl)
    as (results & blocks & s' & Hmain & Hrun & _ & Hreport & Hout & _ & _
        & _ & Hro & _).
  exists s'. split; [exact Hmain|]. split; [|exact Hro].
  rewrite Hout. injection Hrun as <- _. by injection Hreport as <-.
Defined.

(** X16: with nothing to read, [main] ends with [EOFError] once the
    prompt is shown: no client is built, no request is sent and
    nothing is printed. *)
Theorem main_without_input (s : Session) :
  stdin s = [] →
  main s =
    (Raise (mkException "EOFError" "EOF when reading a line"),
     mkSession (environ s) (sdk_init s) (client_calls s) []
       (shown s ++ ["Enter your prompt: "]) (printed s) (world s)).
Proof. intros Hempty. unfold main, bind at 1, input. by rewrite Hempty. Qed.

Lemma main_without_input_witness :
  (main (mkSession ∅ (λ _ _, None) [] [] [] [] quiet_world)).1 =
    Raise (mkException "EOFError" "EOF when reading a line").
Proof.
  exact (f_equal fst
           (main_without_input
              (mkSession ∅ (λ _ _, None) [] [] [] [] quiet_world) eq_refl)).
Defined.

(** X17: an exception raised while a client is built is not caught:
    [main] ends with it before any request is sent and before anything
    is printed, and when it is the OpenAI client that fails, the Gemini
    client is not built. *)
Theorem main_client_failure (s : Session) (line : string)
    (rest : list string) (e : Exception) :
  stdin s = line :: rest →
  sdk_init s OpenAI (environ s !! "OPENAI_API_KEY") = Some e
  ∨ sdk_init s OpenAI (environ s !! "OPENAI_API_KEY") = None
    ∧ sdk_init s Gemini (environ s !! "GEMINI_API_KEY") = Some e →
  (main s).1 = Raise e
  ∧ world (main s).2 = world s
  ∧ printed (main s).2 = printed s
  ∧ (sdk_init s OpenAI (environ s !! "OPENAI_API_KEY") = Some e →
     client_calls (main s).2 =
       client_calls s ++ [(OpenAI, environ s !! "OPENAI_API_KEY")]).
Proof.
  intros Hline Hfail. rewrite (main_eq _ _ _ Hline). simpl.
  destruct Hfail as [Hopenai | [Hopenai Hgemini]].
  - by rewrite Hopenai.
  - rewrite Hopenai, Hgemini. by repeat split.
Qed.

Lemma main_client_failure_witness :
  (main (keyless_session "hi" quiet_world)).1 =
    Raise (mkException "OpenAIError" "The api_key must be set")
  ∧ client_calls (main (keyless_session "hi" quiet_world)).2 =
      [(OpenAI, None)].
Proof.
  destruct (main_client_failure (keyless_session "hi" quiet_world) "hi" []
              (mkException "OpenAIError" "The api_key must be set")
              eq_refl (or_introl eq_refl))
    as (Hraise & _ & _ & Hcalls).
  split; [exact Hraise | exact (Hcalls eq_refl)].
Defined.

(** X2: for any prompt, [run] calls [generate] of every adapter exactly
    once, in the order of the sequence and with the prompt it was
    given, whether earlier adapters failed or not. *)
Theorem run_calls_each_once {W} (adapters : list (ModelAdapter W))
    (prompt : string) (w : W) (calls : list (string * string)) :
  ∃ results,
    run adapters prompt w = (Return results, world_after adapters prompt w)
    ∧ run (spy <$> adapters) prompt (w, calls) =
        (Return results,
         (world_after adapters prompt w,
          calls ++ ((λ a, (name a, prompt)) <$> adapters))).
Proof.
  destruct (run_total adapters prompt w) as [results Hrun].
  exists results. split; [done|]. by rewrite run_spy, Hrun.
Qed.

(** ** The resolution and the order of reported latencies *)

Lemma Qfloor_unique (x : Q) (n : Z) :
  (inject_Z n <= x)%Q → (x < inject_Z n + 1)%Q → Qfloor x = n.
Proof.
  intros Hlo Hhi.
  pose proof (Qfloor_le x) as Hfl. pose proof (Qlt_floor x) as Hfu.
  rewrite inject_Z_plus in Hfu. change (inject_Z 1) with 1%Q in Hfu.
  assert (inject_Z (Qfloor x) < inject_Z (n + 1))%Q as H1.
  { rewrite inject_Z_plus. change (inject_Z 1) with 1%Q. lra. }
  assert (inject_Z n < inject_Z (Qfloor x + 1))%Q as H2.
  { rewrite inject_Z_plus. change (inject_Z 1) with 1%Q. lra. }
  rewrite <- Zlt_Qlt in H1, H2. lia.
Qed.

Lemma round_half_even_mono (x y : Q) :
  (x <= y)%Q → (round_half_even x ≤ round_half_even y)%Z.
Proof.
  intros Hxy.
  pose proof (Qfloor_resp_le _ _ Hxy) as Hfloor.
  destruct (Z.eq_dec (Qfloor x) (Qfloor y)) as [Heq|Hne].
  - unfold round_half_even. rewrite <- Heq.
    destruct (Qcompare_spec (x - inject_Z (Qfloor x)) (1 # 2)) as [Hx|Hx|Hx];
      destruct (Qcompare_spec (y - inject_Z (Qfloor x)) (1 # 2)) as [Hy|Hy|Hy];
      try (destruct (Z.even (Qfloor x))); try lia; exfalso; lra.
  - destruct (round_half_even_choice x) as [-> | ->];
      destruct (round_half_even_choice y) as [-> | ->]; lia.
Qed.

Lemma round_mono (x y : Q) (ndigits : nat) :
  (x <= y)%Q → (round x ndigits <= round y ndigits)%Q.
Proof.
  intros Hxy. rewrite !round_eq.
  pose proof (scale_pos ndigits) as Hs.
  apply Qmult_le_compat_r; [|apply Qinv_le_0_compat; lra].
  rewrite <- Zle_Qle. apply round_half_even_mono.
  apply Qmult_le_compat_r; [done | lra].
Qed.

Lemma round_2_small (x : Q) :
  (0 <= x)%Q → (x < 1 # 200)%Q → round x 2 = 0%Q.
Proof.
  intros Hlo Hhi. unfold round.
  assert (round_half_even (x * inject_Z (10 ^ Z.of_nat 2)) = 0%Z) as ->;
    [|done].
  change (inject_Z (10 ^ Z.of_nat 2)) with 100%Q.
  unfold round_half_even.
  assert (Qfloor (x * 100) = 0%Z) as ->.
  { apply Qfloor_unique; change (inject_Z 0) with 0%Q; lra. }
  assert ((x * 100 - inject_Z 0 ?= 1 # 2)%Q = Lt) as ->; [|done].
  apply (proj1 (Qlt_alt _ _)). change (inject_Z 0) with 0%Q. lra.
Qed.

Lemma shipped_generate_latency (v : vendor) (prompt : string) (w w' : World)
    (r : dict) :
  generate (shipped v) prompt w = (Return r, w') →
  r !! "latency" =
    Some (VFloat
            (round (clock w (S (clock_reads w)) - clock w (clock_reads w)) 2)).
Proof.
  intros Hgen. destruct v; by open_generate Hgen response Hvendor.
Qed.

(** X8: the reported latency keeps the order of the elapsed times: of
    two successful calls of shipped adapters, the one that took no
    longer between its two clock readings reports no larger a
    latency. *)
Theorem latency_keeps_order (v1 v2 : vendor) (prompt1 prompt2 : string)
    (w1 w1' w2 w2' : World) (r1 r2 : dict) :
  generate (shipped v1) prompt1 w1 = (Return r1, w1') →
  generate (shipped v2) prompt2 w2 = (Return r2, w2') →
  (clock w1 (S (clock_reads w1)) - clock w1 (clock_reads w1)
   <= clock w2 (S (clock_reads w2)) - clock w2 (clock_reads w2))%Q →
  ∃ latency1 latency2,
    r1 !! "latency" = Some (VFloat latency1)
    ∧ r2 !! "latency" = Some (VFloat latency2)
    ∧ (latency1 <= latency2)%Q.
Proof.
  intros Hgen1 Hgen2 Hle.
  eexists _, _. split; [eapply shipped_generate_latency, Hgen1|].
  split; [eapply shipped_generate_latency, Hgen2|].
  by apply round_mono.
Qed.

Lemma latency_keeps_order_witness :
  ∃ latency1 latency2,
    (generate OpenAIAdapter.adapter "hi" quiet_world).1 =
      Return (GenerationResult "OpenAI GPT-4.1-mini"
                (VStr "hello  big world") latency1 0)
    ∧ (generate GeminiAdapter.adapter "hi" quiet_world).1 =
        Return (GenerationResult "Google Gemini 1.5 Flash" (VStr " a b c ")
                  latency2 3)
    ∧ (latency1 <= latency2)%Q.
Proof.
  destruct (latency_keeps_order OpenAI Gemini "hi" "hi" quiet_world _
              quiet_world _ _ _ eq_refl eq_refl)
    as (l1 & l2 & H1 & H2 & Hle).
  - by vm_compute.
  - injection H1 as <-. injection H2 as <-.
    eexists _, _. split; [reflexivity|]. split; [reflexivity|]. exact Hle.
Defined.

(** X9: the latency is reported in hundredths of a second: a successful
    call of a shipped adapter that takes less than 5 ms between its two
    clock readings reports the latency 0. *)
Theorem short_call_latency_zero (v : vendor) (prompt : string)
    (w w' : World) (r : dict) :
  generate (shipped v) prompt w = (Return r, w') →
  (clock w (clock_reads w) <= clock w (S (clock_reads w)))%Q →
  (clock w (S (clock_reads w)) - clock w (clock_reads w) < 1 # 200)%Q →
  r !! "latency" = Some (VFloat 0).
Proof.
  intros Hgen Hlo Hhi.
  rewrite (shipped_generate_latency _ _ _ _ _ Hgen).
  rewrite round_2_small; [done | lra | done].
Qed.

Lemma short_call_latency_zero_witness :
  ∃ r,
    (generate OpenAIAdapter.adapter "hi" brisk_world).1 = Return r
    ∧ r !! "latency" = Some (VFloat 0).
Proof.
  eexists. split; [reflexivity|].
  eapply (short_call_latency_zero OpenAI "hi" brisk_world _ _ eq_refl);
    by vm_compute.
Defined.
